(** * A verification model of the country-indicator report (src/index.ts)

    The TypeScript program reads a World-Bank style CSV file line by
    line, builds a [Report] (year labels and one [Indicator] per data
    row) and answers two queries.  This file embeds the program as
    executable Rocq functions, together with the part of the JavaScript
    run-time library the program relies on (string slicing and
    splitting, [parseInt], [parseFloat], binary64 arithmetic, property
    enumeration order), and proves the properties of the specification.

    Conventions of the embedding:
    - a JavaScript string is a [string]; each character stands for one
      UTF-16 code unit (code units below 256);
    - a JavaScript number used for arithmetic is an IEEE-754 binary64
      value, [spec_float] at precision 53 and maximal exponent 1024;
    - a year passed to a query is an integer [Z] (the loop counter
      [i++] is exact on the safe integers);
    - an object used as a map is an association list kept in the order
      in which [Object.keys] enumerates it;
    - a thrown exception is a value of type [exn], results are
      [Ok v] or [Throw e]. *)

From Stdlib Require Import ZArith List Bool Lia Ascii String.
From Stdlib Require Import Floats.SpecFloat.
From Stdlib Require Import Numbers.DecimalString.
From Stdlib Require Import Sorting.Permutation Sorting.Sorted.
Import ListNotations.

#[local] Open Scope string_scope.
#[local] Open Scope Z_scope.

(* ================================================================== *)
(** * JavaScript strings *)
(* ================================================================== *)

Module JsString.

(** [s.indexOf(pat)]: position of the first occurrence, or -1. *)
Fixpoint indexOf_from (pat s : string) (i : Z) : Z :=
  if prefix pat s then i
  else match s with
       | EmptyString => -1
       | String _ s' => indexOf_from pat s' (i + 1)
       end.

Definition indexOf (pat s : string) : Z := indexOf_from pat s 0.

(** [s.lastIndexOf(pat)]: position of the last occurrence, or -1. *)
Fixpoint lastIndexOf_from (pat s : string) (i best : Z) : Z :=
  let best' := if prefix pat s then i else best in
  match s with
  | EmptyString => best'
  | String _ s' => lastIndexOf_from pat s' (i + 1) best'
  end.

Definition lastIndexOf (pat s : string) : Z := lastIndexOf_from pat s 0 (-1).

(** [s.substr(start, len)] on integer arguments: a negative [start]
    counts from the end, [len] is clamped to what is available, and a
    non-positive [len] gives the empty string. *)
Definition substr (start len : Z) (s : string) : string :=
  let size := Z.of_nat (String.length s) in
  let intStart := if start <? 0 then Z.max (size + start) 0
                  else Z.min start size in
  let intLength := Z.min (Z.max len 0) size in
  let intEnd := Z.min (intStart + intLength) size in
  substring (Z.to_nat intStart) (Z.to_nat (intEnd - intStart)) s.

(** [s.split(sep)] for a string separator.  The scan goes left to
    right; [skip] counts the characters of a separator occurrence that
    remain to be dropped, [cur] is the field being collected. *)
Fixpoint split_go (sep : string) (skip : nat) (cur s : string) : list string :=
  match s with
  | EmptyString => [cur]
  | String c s' =>
      match skip with
      | S k => split_go sep k cur s'
      | O =>
          if prefix sep s
          then cur :: split_go sep (String.length sep - 1) EmptyString s'
          else split_go sep 0 (cur ++ String c EmptyString) s'
      end
  end.

Fixpoint chars (s : string) : list string :=
  match s with
  | EmptyString => []
  | String c s' => String c EmptyString :: chars s'
  end.

Definition split (sep s : string) : list string :=
  match sep with
  | EmptyString => chars s
  | _ => split_go sep 0 EmptyString s
  end.

(** White space skipped by [parseInt] and [parseFloat] (the code units
    below 256 of StrWhiteSpaceChar). *)
Definition isWhiteSpace (c : ascii) : bool :=
  let n := nat_of_ascii c in
  ((9 <=? n) && (n <=? 13) || (n =? 32) || (n =? 160))%nat.

Fixpoint trimStart (s : string) : string :=
  match s with
  | String c s' => if isWhiteSpace c then trimStart s' else s
  | EmptyString => s
  end.

(** Value of a digit in the given radix. *)
Definition digitValue (radix : Z) (c : ascii) : option Z :=
  let n := Z.of_nat (nat_of_ascii c) in
  let v := if (48 <=? n) && (n <=? 57) then n - 48
           else if (97 <=? n) && (n <=? 122) then n - 87
           else if (65 <=? n) && (n <=? 90) then n - 55
           else radix in
  if v <? radix then Some v else None.

(** Longest prefix of digits: the value of [acc] followed by the
    digits, the number of digits read, and the rest of the string. *)
Fixpoint digits (radix : Z) (s : string) (acc : Z) (n : nat) : Z * nat * string :=
  match s with
  | String c s' =>
      match digitValue radix c with
      | Some d => digits radix s' (acc * radix + d) (S n)
      | None => (acc, n, s)
      end
  | EmptyString => (acc, n, s)
  end.

(** The double-quote character, as a string. *)
Definition dquote : string := String (ascii_of_nat 34) EmptyString.

(** An optional sign: [true] for a minus. *)
Definition sign (s : string) : bool * string :=
  match s with
  | String "+"%char r => (false, r)
  | String "-"%char r => (true, r)
  | _ => (false, s)
  end.

End JsString.

(* ================================================================== *)
(** * JavaScript numbers *)
(* ================================================================== *)

Module JsNumber.

Definition number : Type := spec_float.

Definition prec : Z := 53.
Definition emax : Z := 1024.

Definition NaN : number := S754_nan.
Definition zero : number := S754_zero false.
Definition fadd (x y : number) : number := SFadd prec emax x y.
Definition fdiv (x y : number) : number := SFdiv prec emax x y.
(** [x >= y] *)
Definition fge (x y : number) : bool := SFleb y x.
(** [x == y] on numbers *)
Definition feq (x y : number) : bool := SFeqb x y.

(** The binary64 value nearest to an integer (ties to even). *)
Definition ofZ (z : Z) : number := binary_normalize prec emax z 0 false.

Definition one : number := ofZ 1.

(** The binary64 value nearest to [(-1)^neg * m * 10^e10], for [m >= 0]. *)
Definition ofDecimal (neg : bool) (m e10 : Z) : number :=
  match m with
  | Zpos _ =>
      if 0 <=? e10
      then binary_normalize prec emax (cond_Zopp neg (m * 10 ^ e10)) 0 false
      else
        let '(q, e, l) := SFdiv_core_binary prec emax m 0 (10 ^ (- e10)) 0 in
        binary_round_aux prec emax neg q e l
  | _ => S754_zero neg
  end.

(** [parseFloat(s)]: leading white space is skipped, then the longest
    prefix that is a decimal literal (sign, [Infinity], digits with an
    optional fraction and exponent) is converted; [NaN] when there is
    no such prefix. *)
Definition parseFloat (s : string) : number :=
  let '(neg, s2) := JsString.sign (JsString.trimStart s) in
  if prefix "Infinity" s2 then S754_infinity neg
  else
    let '(ip, n1, s3) := JsString.digits 10 s2 0 0 in
    let '(m, n2, s4) :=
      match s3 with
      | String "."%char r => JsString.digits 10 r ip 0
      | _ => (ip, 0%nat, s3)
      end in
    match (n1 + n2)%nat with
    | O => NaN
    | _ =>
        let ex :=
          match s4 with
          | String "e"%char r | String "E"%char r =>
              let '(eneg, r1) := JsString.sign r in
              let '(ev, n3, _) := JsString.digits 10 r1 0 0 in
              match n3 with O => 0 | _ => cond_Zopp eneg ev end
          | _ => 0
          end in
        ofDecimal neg m (ex - Z.of_nat n2)
    end.

End JsNumber.
Export JsNumber.

(* ================================================================== *)
(** * Property names and objects used as maps *)
(* ================================================================== *)

Module JsObject.

(** The property names the program uses on [values] and [averagies]
    are string forms of the results of [parseInt] and of integer loop
    counters.  Number-to-string conversion is injective on these
    (the two zeros share the name ["0"]), so a name is represented by
    the number it spells. *)
Inductive PropertyKey : Type :=
| KNaN
| KInfinity (neg : bool)
| KInt (z : Z).

Definition key_eqb (a b : PropertyKey) : bool :=
  match a, b with
  | KNaN, KNaN => true
  | KInfinity s, KInfinity t => Bool.eqb s t
  | KInt x, KInt y => x =? y
  | _, _ => false
  end.

(** The name of the binary64 value nearest to an integer. *)
Definition keyOfInteger (z : Z) : PropertyKey :=
  match ofZ z with
  | S754_zero _ => KInt 0
  | S754_infinity s => KInfinity s
  | S754_nan => KNaN
  | S754_finite s m e => KInt (cond_Zopp s (Z.shiftl (Zpos m) e))
  end.

(** Number-to-string conversion of a positive integral binary64 value
    [z] of [d] decimal digits.  JavaScript prints the shortest digits
    that still denote [z]: [shortestAt z d k] is the number with at most
    [k] significant digits that converts back to [z], the closest one to
    [z] when there are two, and [shortest] takes [k] as small as
    possible. *)
Definition decimal (z : Z) : string := NilZero.string_of_int (Z.to_int z).

Definition shortestAt (z d k : Z) : option Z :=
  let p := 10 ^ (d - k) in
  let lo := (z / p) * p in
  let hi := lo + p in
  let okLo := (0 <? lo) && key_eqb (keyOfInteger lo) (KInt z) in
  let okHi := key_eqb (keyOfInteger hi) (KInt z) in
  match okLo, okHi with
  | true, true =>
      if z - lo <? hi - z then Some lo
      else if hi - z <? z - lo then Some hi
      else if Z.even (lo / p) then Some lo else Some hi
  | true, false => Some lo
  | false, true => Some hi
  | false, false => None
  end.

Fixpoint shortest (fuel : nat) (z d k : Z) : Z :=
  match fuel with
  | O => z
  | S fuel' =>
      match shortestAt z d k with
      | Some v => v
      | None => shortest fuel' z d (k + 1)
      end
  end.

(** A string of digits without its trailing zeros. *)
Fixpoint stripZeros (s : string) : string :=
  match s with
  | EmptyString => EmptyString
  | String c s' =>
      match stripZeros s' with
      | EmptyString =>
          if Ascii.eqb c "0"%char then EmptyString else String c EmptyString
      | r => String c r
      end
  end.

(** Plain decimal notation up to 21 digits, exponent notation beyond. *)
Definition positiveToString (z : Z) : string :=
  let d := Z.of_nat (String.length (decimal z)) in
  let digits := decimal (shortest (Z.to_nat d) z d 1) in
  let n := String.length digits in
  if (n <=? 21)%nat then digits
  else
    match stripZeros digits with
    | String c EmptyString =>
        String c EmptyString ++ "e+" ++ decimal (Z.of_nat n - 1)
    | String c rest =>
        String c EmptyString ++ "." ++ rest ++ "e+" ++ decimal (Z.of_nat n - 1)
    | EmptyString => digits
    end.

(** The name as the string JavaScript prints: the string form of the
    number the name spells. *)
Definition keyToString (k : PropertyKey) : string :=
  match k with
  | KNaN => "NaN"
  | KInfinity false => "Infinity"
  | KInfinity true => "-Infinity"
  | KInt z =>
      match keyOfInteger z with
      | KNaN => "NaN"
      | KInfinity false => "Infinity"
      | KInfinity true => "-Infinity"
      | KInt 0 => "0"
      | KInt (Zpos p) => positiveToString (Zpos p)
      | KInt (Zneg p) => "-" ++ positiveToString (Zpos p)
      end
  end.

(** [parseInt(s)] with no radix argument: white space and a sign are
    skipped, a [0x] prefix selects radix 16, and the longest prefix of
    digits is converted; [NaN] when there is no digit. *)
Definition parseInt (s : string) : PropertyKey :=
  let '(neg, s2) := JsString.sign (JsString.trimStart s) in
  let '(radix, s3) :=
    match s2 with
    | String "0"%char (String "x"%char r)
    | String "0"%char (String "X"%char r) => (16, r)
    | _ => (10, s2)
    end in
  let '(v, n, _) := JsString.digits radix s3 0 0 in
  match n with
  | O => KNaN
  | _ => keyOfInteger (cond_Zopp neg v)
  end.

(** An array index is an integer name in [0, 2^32 - 2]. *)
Definition isArrayIndex (k : PropertyKey) : bool :=
  match k with
  | KInt z => (0 <=? z) && (z <? 2 ^ 32 - 1)
  | _ => false
  end.

Definition indexOfKey (k : PropertyKey) : Z :=
  match k with KInt z => z | _ => 0 end.

Section Objects.
Context {V : Type}.

(** Own enumerable properties, in [Object.keys] order: array indices
    in ascending order first, then the other names in the order of
    their creation. *)
Definition t : Type := list (PropertyKey * V).

Definition keys (o : t) : list PropertyKey := map fst o.

(** [o[k]]: [None] stands for [undefined]. *)
Fixpoint getProp (k : PropertyKey) (o : t) : option V :=
  match o with
  | [] => None
  | (k', v) :: o' => if key_eqb k k' then Some v else getProp k o'
  end.

Definition hasProp (k : PropertyKey) (o : t) : bool :=
  match getProp k o with Some _ => true | None => false end.

(** Assignment to an existing property keeps its place. *)
Fixpoint update (k : PropertyKey) (v : V) (o : t) : t :=
  match o with
  | [] => []
  | (k', v') :: o' =>
      if key_eqb k k' then (k', v) :: o' else (k', v') :: update k v o'
  end.

(** Creation of a property: an array index goes to its place among
    the indices, any other name goes to the end. *)
Fixpoint create (k : PropertyKey) (v : V) (o : t) : t :=
  match o with
  | [] => [(k, v)]
  | (k', v') :: o' =>
      if isArrayIndex k
         && (negb (isArrayIndex k') || (indexOfKey k <? indexOfKey k'))
      then (k, v) :: o
      else (k', v') :: create k v o'
  end.

(** [o[k] = v] *)
Definition setProp (k : PropertyKey) (v : V) (o : t) : t :=
  if hasProp k o then update k v o else create k v o.

End Objects.

Arguments t : clear implicits.

End JsObject.
Export JsObject.

(* ================================================================== *)
(** * Exceptions, results and console events *)
(* ================================================================== *)

(** What a JavaScript evaluation can throw in this program.  [Error] is
    an error object raised by a [throw] statement of the program
    itself; the two [TypeError]s are raised by the run time and
    [SystemError] by a file stream that cannot read its file. *)
Inductive exn : Type :=
| TypeError_PropertyOfNull (prop : string)
| TypeError_ReduceOfEmptyArray
| SystemError (path : string)
| Error (message : string).

Inductive result (A : Type) : Type :=
| Ok (a : A)
| Throw (e : exn).

Arguments Ok {A} a.
Arguments Throw {A} e.

(** Observable actions of the process. *)
Inductive event : Type :=
| ConsoleLog (args : list string)
| ProcessExit (status : Z)
| OpenFile (path : string)
| Rejected (e : exn)
| Uncaught (e : exn).

(* ================================================================== *)
(** * The data model *)
(* ================================================================== *)

Record Indicator : Type := {
  country : string;
  countryCode : string;
  name : string;
  code : string;
  values : JsObject.t string
}.

Record Report : Type := {
  years : list string;
  indicators : list Indicator
}.

(** [new Report()] *)
Definition new_Report : Report := {| years := []; indicators := [] |}.

(** [cols[i]] where the caller has checked that [i] is in range. *)
Definition col (cols : list string) (i : nat) : string := nth i cols "".

(* ================================================================== *)
(** * Reading the data file *)
(* ================================================================== *)

(** [parseLine(line, sep)] *)
Definition parseLine (line sep : string) : list string :=
  let line := JsString.substr (JsString.indexOf JsString.dquote line + 1)
                              (JsString.lastIndexOf JsString.dquote line - 1)
                              line in
  JsString.split sep line.

(** [addIndicator(indicator)]; an [Indicator] object is never falsy. *)
Definition addIndicator (indicator : Indicator) (this : Report) : Report :=
  {| years := years this;
     indicators := indicators this ++ [indicator] |}.

(** The [forEach] over [this.years] that fills [indicator.values],
    [index] being the running column number. *)
Fixpoint fillValues (ys cols : list string) (index : nat)
         (vals : JsObject.t string) : JsObject.t string :=
  match ys with
  | [] => vals
  | year :: ys' =>
      fillValues ys' cols (S index) (setProp (parseInt year) (col cols index) vals)
  end.

(** The state of one [readDataFile] call: the local [gotHeader], the
    report being filled and what was written to the console. *)
Record Reader : Type := {
  gotHeader : bool;
  this : Report;
  console : list event
}.

(** The separator the reader passes to [parseLine]: quote, comma, quote. *)
Definition separator : string := JsString.dquote ++ "," ++ JsString.dquote.

(** The ["line"] handler. *)
Definition onLine (st : Reader) (input : string) : Reader :=
  let cols := parseLine input separator in
  if (List.length cols =? 0)%nat || negb (gotHeader st) then
    match cols with
    | c0 :: _ =>
        if String.eqb c0 "Country Name"
        then {| gotHeader := true;
                this := {| years := years (this st) ++ skipn 4 cols;
                           indicators := indicators (this st) |};
                console := console st |}
        else st
    | [] => st
    end
  else if (List.length cols <? List.length (years (this st)) + 4)%nat then
    {| gotHeader := gotHeader st;
       this := this st;
       console := console st ++ [ConsoleLog ["ignored invalid line : "; input]] |}
  else
    let indicator :=
      {| country := col cols 0;
         countryCode := col cols 1;
         name := col cols 2;
         code := col cols 3;
         values := fillValues (years (this st)) cols 4 [] |} in
    {| gotHeader := gotHeader st;
       this := addIndicator indicator (this st);
       console := console st |}.

(** [readDataFile] run to the end of the input: the lines are handled
    in order and the promise resolves with the report.  (The two
    signal handlers reject the promise from outside; a run that is not
    signalled is what is modelled.) *)
Definition readLines (r : Report) (lines : list string) : Reader :=
  fold_left onLine lines {| gotHeader := false; this := r; console := [] |}.

Definition readDataFile (r : Report) (lines : list string) : Report :=
  this (readLines r lines).

(* ================================================================== *)
(** * Queries *)
(* ================================================================== *)

(** [value.name === indicatorName] *)
Definition matching (indicatorName : string) (value : Indicator) : bool :=
  String.eqb (name value) indicatorName.

(** [v === ""] for the result of a property read. *)
Definition isEmptyString (v : option string) : bool :=
  match v with
  | Some EmptyString => true
  | _ => false
  end.

(** The string [parseFloat] receives for the result of a property
    read: its argument is converted to a string first. *)
Definition toStringArg (v : option string) : string :=
  match v with
  | Some s => s
  | None => "undefined"
  end.

(** The values taken by [i] in [for (i = startYear; i <= endYear; i++)]. *)
Definition yearRange (startYear endYear : Z) : list Z :=
  map (fun k => startYear + Z.of_nat k)
      (seq 0 (Z.to_nat (endYear - startYear + 1))).

(** One of the two summing loops of the reducer: [None] when an empty
    string makes the loop return early, otherwise the total. *)
Fixpoint totalOver (vals : JsObject.t string) (ys : list Z) (acc : number)
  : option number :=
  match ys with
  | [] => Some acc
  | i :: ys' =>
      let v := getProp (KInt i) vals in
      if isEmptyString v then None
      else totalOver vals ys' (fadd acc (parseFloat (toStringArg v)))
  end.

(** The callback given to [reduce]; [None] is [null].  [current] is
    always an object, so the test [!current] never succeeds. *)
Definition higher (startYear endYear : Z)
           (previous : option Indicator) (current : Indicator)
  : option Indicator :=
  match previous with
  | None => Some current
  | Some p =>
      match totalOver (values current) (yearRange startYear endYear) zero with
      | None => Some p
      | Some currentTotal =>
          match totalOver (values p) (yearRange startYear endYear) zero with
          | None => Some current
          | Some previousTotal =>
              if fge currentTotal previousTotal then Some current else Some p
          end
      end
  end.

(** The indicator the reduction ends with. *)
Definition winner (r : Report) (indicatorName : string) (startYear endYear : Z)
  : option Indicator :=
  fold_left (higher startYear endYear)
            (filter (matching indicatorName) (indicators r)) None.

Definition countryOfHighestAverageBewteenYears
           (r : Report) (indicatorName : string) (startYear endYear : Z)
  : result string :=
  match winner r indicatorName startYear endYear with
  | Some w => Ok (country w)
  | None => Throw (TypeError_PropertyOfNull "country")
  end.

Record Average : Type := {
  total : number;
  count : number;
  avg : number
}.

(** The body of the inner [forEach], for one year of one indicator. *)
Definition accumulateYear (indicator : Indicator)
           (averagies : JsObject.t Average) (year : PropertyKey)
  : JsObject.t Average :=
  let averagies :=
    if hasProp year averagies then averagies
    else setProp year {| total := zero; count := zero; avg := zero |} averagies in
  let v := getProp year (values indicator) in
  if isEmptyString v then averagies
  else
    match getProp year averagies with
    | None => averagies (* not reached: the entry was just created *)
    | Some a =>
        let total' := fadd (total a) (parseFloat (toStringArg v)) in
        let count' := fadd (count a) one in
        let avg' := if negb (feq count' zero) then fdiv total' count' else avg a in
        setProp year {| total := total'; count := count'; avg := avg' |} averagies
    end.

(** The body of the outer [forEach], for one indicator. *)
Definition accumulate (averagies : JsObject.t Average) (indicator : Indicator)
  : JsObject.t Average :=
  fold_left (accumulateYear indicator) (keys (values indicator)) averagies.

(** The object [averagies] once both loops have run. *)
Definition averagiesOf (r : Report) (indicatorName : string) : JsObject.t Average :=
  fold_left accumulate (filter (matching indicatorName) (indicators r)) [].

(** [averagies[k].avg]; every [k] the reducer sees is a key of [averagies]. *)
Definition avgOf (averagies : JsObject.t Average) (k : PropertyKey) : number :=
  match getProp k averagies with
  | Some a => avg a
  | None => NaN
  end.

(** The callback of the final [reduce].  A key is never the empty
    string, so neither [!previous] nor [!current] succeeds. *)
Definition later (averagies : JsObject.t Average) (previous current : PropertyKey)
  : PropertyKey :=
  if fge (avgOf averagies current) (avgOf averagies previous)
  then current else previous.

(** [reduce] without an initial value. *)
Definition reduce1 {A : Type} (f : A -> A -> A) (l : list A) : result A :=
  match l with
  | [] => Throw TypeError_ReduceOfEmptyArray
  | x :: l' => Ok (fold_left f l' x)
  end.

Definition yearOfHighestAmongAllCountries (r : Report) (indicatorName : string)
  : result PropertyKey :=
  let averagies := averagiesOf r indicatorName in
  reduce1 (later averagies) (keys averagies).

(* ================================================================== *)
(** * Sorting and the main program *)
(* ================================================================== *)

Section Locale.

(** [a.localeCompare(b)] depends on the collation of the host; it is
    a parameter of the model. *)
Variable localeCompare : string -> string -> Z.

(** [Array.prototype.sort] with a comparator: a stable sort. *)
Fixpoint insertSorted {A : Type} (cmp : A -> A -> Z) (x : A) (l : list A)
  : list A :=
  match l with
  | [] => [x]
  | y :: l' => if cmp x y <? 0 then x :: l else y :: insertSorted cmp x l'
  end.

Definition sort {A : Type} (cmp : A -> A -> Z) (l : list A) : list A :=
  fold_left (fun acc x => insertSorted cmp x acc) l [].

Definition sortBy (sortField : string) (r : Report) : Report :=
  if String.eqb sortField "name" then
    {| years := years r;
       indicators := sort (fun a b => localeCompare (name a) (name b))
                          (indicators r) |}
  else if String.eqb sortField "code" then
    {| years := years r;
       indicators := sort (fun a b => localeCompare (code a) (code b))
                          (indicators r) |}
  else r.

Definition usage : list event :=
  [ ConsoleLog ["Usage : ts-node index.ts <data file path>"];
    ConsoleLog ["Example : ts-node src/index.ts data.csv"];
    ProcessExit 1 ].

(** The [then] callback of the main program.  An exception thrown in
    it rejects the promise that [then] returns. *)
Definition answers (report : Report) : list event :=
  let report := sortBy "code" report in
  let name := "Urban population growth (annual %)" in
  match countryOfHighestAverageBewteenYears report name 1980 1990 with
  | Throw e => [Rejected e]
  | Ok result =>
      ConsoleLog ["The country with the highest average " ++ name
                  ++ " between 1980 and 1990 : " ++ result]
      :: let name2 := "CO2 emissions (kt)" in
         match yearOfHighestAmongAllCountries report name2 with
         | Throw e => [Rejected e]
         | Ok result2 =>
             [ConsoleLog ["The year with the highest averaged " ++ name2
                          ++ " : " ++ keyToString result2]]
         end
  end.

(** The main program on [process.argv]; [fileLines] gives the lines
    of a readable file.  The error event of a stream that cannot
    read its file has no listener: the process ends on it. *)
Definition main (argv : list string)
           (fileLines : string -> option (list string)) : list event :=
  if (List.length argv <? 3)%nat then usage
  else
    let path := nth 2 argv "" in
    OpenFile path ::
      match fileLines path with
      | None => [Uncaught (SystemError path)]
      | Some lines =>
          let rd := readLines new_Report lines in
          console rd ++ answers (this rd)
      end.

End Locale.

(* ================================================================== *)
(** * Vocabulary of the properties *)
(* ================================================================== *)

(** An indicator has an empty cell for some year of the range: it is
    the condition under which its summing loop returns early. *)
Definition disqualified (startYear endYear : Z) (i : Indicator) : Prop :=
  exists y, startYear <= y <= endYear
            /\ getProp (KInt y) (values i) = Some "".

(** An indicator has a non-empty raw value for every year of the range. *)
Definition complete (startYear endYear : Z) (i : Indicator) : Prop :=
  forall y, startYear <= y <= endYear ->
            exists v, getProp (KInt y) (values i) = Some v /\ v <> "".

(** The parsed fields of the header line of a file: those of the first
    line whose first field is [Country Name]. *)
Fixpoint headerOf (lines : list string) : option (list string) :=
  match lines with
  | [] => None
  | l :: lines' =>
      match parseLine l separator with
      | c0 :: cols =>
          if String.eqb c0 "Country Name" then Some (c0 :: cols)
          else headerOf lines'
      | [] => headerOf lines'
      end
  end.

(** A well-formed file has a header line, the header has the four
    fixed columns, and its year labels denote pairwise distinct years.
    Data lines are not constrained: short ones are dropped. *)
Definition wellFormed (lines : list string) : Prop :=
  match headerOf lines with
  | Some cols =>
      (4 <= List.length cols)%nat /\ NoDup (map parseInt (skipn 4 cols))
  | None => False
  end.

(** An indicator whose [values] were filled from the year list [ys]. *)
Definition builtFrom (ys : list string) (i : Indicator) : Prop :=
  exists cols, values i = fillValues ys cols 4 [].

(** [count > 0] for the entry of a year in [averagies]. *)
Definition hasData (averagies : JsObject.t Average) (k : PropertyKey) : bool :=
  match getProp k averagies with
  | Some a => SFltb zero (count a)
  | None => false
  end.

(** The stored average of an entry with a count other than zero is its
    total divided by its count. *)
Definition averageOk (a : Average) : Prop :=
  feq (count a) zero = false -> avg a = fdiv (total a) (count a).

(** The number of positional arguments on the command line: what
    follows the interpreter and the script in [process.argv]. *)
Definition positionalCount (argv : list string) : Z :=
  Z.of_nat (List.length argv) - 2.

(** A result that is an error raised by the program itself, as opposed
    to a failure of the run time. *)
Definition explicitError {A : Type} (r : result A) : Prop :=
  exists message, r = Throw (Error message).

(** Sample inputs.  [csvLine fields tail] is the line of the file
    format with the given fields: each field in double quotes, the
    fields separated by commas, followed by [tail]. *)

Definition csvLine (fields : list string) (tail : string) : string :=
  JsString.dquote ++ String.concat separator fields ++ JsString.dquote ++ tail.

Definition sampleHeader : string :=
  csvLine ["Country Name"; "Country Code"; "Indicator Name"; "Indicator Code";
           "1980"; "1981"] "".

Definition tieFirst : Indicator :=
  {| country := "First"; countryCode := "FST"; name := "X"; code := "x";
     values := [(KInt 1980, "2"); (KInt 1981, "4")] |}.

Definition tieSecond : Indicator :=
  {| country := "Second"; countryCode := "SND"; name := "X"; code := "x";
     values := [(KInt 1980, "5"); (KInt 1981, "1")] |}.

Definition tieReport : Report :=
  {| years := ["1980"; "1981"]; indicators := [tieFirst; tieSecond] |}.

Definition nonNumericFile : list string :=
  [ sampleHeader;
    csvLine ["Aruba"; "ABW"; "X"; "x"; "5"; "n/a"] "," ].

Definition gapFile : list string :=
  [ sampleHeader;
    csvLine ["Aruba"; "ABW"; "X"; "x"; "7"; ""] ",";
    csvLine ["Benin"; "BEN"; "X"; "x"; "1"; "2"] ",";
    csvLine ["Chad"; "TCD"; "X"; "x"; ""; "9"] "," ].

Definition allGapsReport : Report :=
  {| years := ["1980"; "1981"];
     indicators :=
       [ {| country := "Aruba"; countryCode := "ABW"; name := "Y"; code := "y";
            values := [(KInt 1980, "1"); (KInt 1981, "2")] |};
         {| country := "Benin"; countryCode := "BEN"; name := "X"; code := "x";
            values := [(KInt 1980, "7"); (KInt 1981, "")] |};
         {| country := "Chad"; countryCode := "TCD"; name := "X"; code := "x";
            values := [(KInt 1980, ""); (KInt 1981, "9")] |} ] |}.

Definition repeatedYearFile : list string :=
  [ csvLine ["Country Name"; "Country Code"; "Indicator Name"; "Indicator Code";
             "1980"; "1980"] "";
    csvLine ["Aruba"; "ABW"; "X"; "x"; "5"; "6"] "," ].

Definition noYearsFile : list string :=
  [ csvLine ["Country Name"; "Country Code"; "Indicator Name"; "Indicator Code"] "";
    csvLine ["Aruba"; "ABW"; "X"; "x"] "," ].

Definition answerFile : list string :=
  [ sampleHeader;
    csvLine ["Aruba"; "ABW"; "Urban population growth (annual %)"; "SP.URB.GROW";
             "1.5"; "2.5"] ",";
    csvLine ["Aruba"; "ABW"; "CO2 emissions (kt)"; "EN.ATM.CO2E.KT";
             "10"; "30"] "," ].

Definition noFile : string -> option (list string) := fun _ => None.

Definition oneFile (path : string) : option (list string) :=
  if String.eqb path "data.csv" then Some answerFile else None.

Definition byteOrder (a b : string) : Z :=
  match String.compare a b with
  | Lt => -1
  | Eq => 0
  | Gt => 1
  end.

(* ================================================================== *)
(** * Vocabulary of the further properties *)
(* ================================================================== *)

(** A string without any double quote. *)
Fixpoint quoteFree (s : string) : bool :=
  match s with
  | EmptyString => true
  | String c s' => negb (Ascii.eqb c (ascii_of_nat 34)) && quoteFree s'
  end.

(** The indicator the line handler builds from the fields of a row. *)
Definition rowIndicator (ys cols : list string) : Indicator :=
  {| country := col cols 0;
     countryCode := col cols 1;
     name := col cols 2;
     code := col cols 3;
     values := fillValues ys cols 4 [] |}.

(** The test the line handler makes on the field count of a row. *)
Definition enoughFields (ys : list string) (line : string) : bool :=
  negb (List.length (parseLine line separator) <? List.length ys + 4)%nat.

(** The lines of a file that follow its header line. *)
Fixpoint afterHeader (lines : list string) : list string :=
  match lines with
  | [] => []
  | l :: lines' =>
      match parseLine l separator with
      | c0 :: _ =>
          if String.eqb c0 "Country Name" then lines' else afterHeader lines'
      | [] => afterHeader lines'
      end
  end.

(** The diagnostic printed for a dropped line. *)
Definition diagnostic (input : string) : event :=
  ConsoleLog ["ignored invalid line : "; input].

(** [appendToLast l x] is [l] with [x] appended to its last element. *)
Fixpoint appendToLast (l : list string) (x : string) : list string :=
  match l with
  | [] => []
  | [a] => [a ++ x]
  | a :: l' => a :: appendToLast l' x
  end.

(** The test of the line handler on a row given by its fields. *)
Definition longEnough (ys : list string) (row : list string) : bool :=
  negb (List.length row <? List.length ys + 4)%nat.

(** The sum of an indicator over the range as the specification words
    it: the parsed cells of the years of the range, in order, added
    from the left to 0. *)
Definition rangeSum (startYear endYear : Z) (i : Indicator) : number :=
  fold_left (fun t y => fadd t (parseFloat (toStringArg (getProp (KInt y) (values i)))))
            (yearRange startYear endYear) zero.

(** More sample inputs. *)

Definition noDataFile : list string :=
  [ csvLine ["Country Name"; "Country Code"; "Indicator Name"; "Indicator Code";
             "1980"; "1981"; "1982"] "";
    csvLine ["Aruba"; "ABW"; "X"; "x"; "-5"; ""; "-7"] ",";
    csvLine ["Benin"; "BEN"; "X"; "x"; "-3"; ""; ""] "," ].

Definition sumsReport : Report :=
  {| years := ["1980"; "1981"];
     indicators :=
       [ {| country := "Aruba"; countryCode := "ABW"; name := "X"; code := "ccc";
            values := [(KInt 1980, "1"); (KInt 1981, "2")] |};
         {| country := "Benin"; countryCode := "BEN"; name := "X"; code := "a";
            values := [(KInt 1980, ""); (KInt 1981, "100")] |};
         {| country := "Chad"; countryCode := "TCD"; name := "X"; code := "bb";
            values := [(KInt 1980, "5"); (KInt 1981, "3")] |};
         {| country := "Denmark"; countryCode := "DNK"; name := "Urban"; code := "dddd";
            values := [(KInt 1980, "9"); (KInt 1981, "9")] |};
         {| country := "Egypt"; countryCode := "EGY"; name := "X"; code := "eeeee";
            values := [(KInt 1980, "2"); (KInt 1981, "3")] |} ] |}.

(** The sum the reducer computes for an indicator over the range, or
    [None] when an empty cell makes its loop return. *)
Definition totalOf (startYear endYear : Z) (i : Indicator) : option number :=
  totalOver (values i) (yearRange startYear endYear) zero.

(** The indicator has no empty cell in the range. *)
Definition qualifiedb (startYear endYear : Z) (i : Indicator) : bool :=
  match totalOf startYear endYear i with
  | Some _ => true
  | None => false
  end.

(** The non-empty cells of the year [k] in the indicators [l], in order. *)
Fixpoint cellsOf (k : PropertyKey) (l : list Indicator) : list string :=
  match l with
  | [] => []
  | i :: l' =>
      match getProp k (values i) with
      | Some v => if isEmptyString (Some v) then cellsOf k l'
                  else v :: cellsOf k l'
      | None => cellsOf k l'
      end
  end.

(** The running sum of the parsed cells, from the left, starting at 0. *)
Definition sumCells (cells : list string) : number :=
  fold_left (fun t v => fadd t (parseFloat v)) cells zero.

(** The running count of the cells: 0 incremented once per cell. *)
Definition countCells (cells : list string) : number :=
  fold_left (fun c _ => fadd c one) cells zero.

(** The average of a year as the specification words it: the sum of
    the parsed non-empty cells of the year divided by their count. *)
Definition meanOf (k : PropertyKey) (l : list Indicator) : number :=
  fdiv (sumCells (cellsOf k l)) (countCells (cellsOf k l)).

(** What the inner [forEach] makes of the entry [e] of a year (absent
    when [None]) for an indicator whose cell for the year is [v]. *)
Definition addCell (e : option Average) (v : option string) : Average :=
  let a := match e with
           | Some a => a
           | None => {| total := zero; count := zero; avg := zero |}
           end in
  if isEmptyString v then a
  else
    let total' := fadd (total a) (parseFloat (toStringArg v)) in
    let count' := fadd (count a) one in
    {| total := total';
       count := count';
       avg := if negb (feq count' zero) then fdiv total' count' else avg a |}.

(** A consistent comparison function, as [Array.prototype.sort]
    requires of its argument: the comparator splits the values into
    classes of equal values, and the classes are totally ordered. *)
Definition consistent {A : Type} (cmp : A -> A -> Z) : Prop :=
  (forall a, cmp a a = 0)
  /\ (forall a b, cmp a b = 0 -> cmp b a = 0)
  /\ (forall a b c, cmp a b = 0 -> cmp b c = 0 -> cmp a c = 0)
  /\ (forall a b c, cmp a b < 0 -> cmp b c < 0 -> cmp a c < 0)
  /\ (forall a b c, cmp a b > 0 -> cmp b c > 0 -> cmp a c > 0).

(** A sample comparator: shorter strings first. *)
Definition byLength (a b : string) : Z :=
  Z.of_nat (String.length a) - Z.of_nat (String.length b).

(* ================================================================== *)
(** * The run-time model on known values *)
(* ================================================================== *)

Example parseFloat_tenth :
  parseFloat "0.1" = S754_finite false 7205759403792794 (-56).
Proof. vm_compute. reflexivity. Qed.

Example parseFloat_sum_rounds :
  fadd (parseFloat "0.1") (parseFloat "0.2") = parseFloat "0.30000000000000004"
  /\ feq (fadd (parseFloat "0.1") (parseFloat "0.2")) (parseFloat "0.3") = false.
Proof. split; vm_compute; reflexivity. Qed.

Example parseFloat_prefixes :
  parseFloat "  12.5kt" = parseFloat "125e-1"
  /\ parseFloat "1e" = one
  /\ parseFloat "-Infinity" = S754_infinity true
  /\ parseFloat "" = NaN
  /\ parseFloat "n/a" = NaN
  /\ parseFloat "undefined" = NaN.
Proof. repeat split; vm_compute; reflexivity. Qed.

Example parseFloat_limits :
  parseFloat "1.7976931348623157e308" = S754_finite false 9007199254740991 971
  /\ parseFloat "1e309" = S754_infinity false
  /\ parseFloat "5e-324" = S754_finite false 1 (-1074)
  /\ parseFloat "2e-324" = zero.
Proof. repeat split; vm_compute; reflexivity. Qed.

Example comparison_with_NaN :
  fge NaN NaN = false /\ fge one NaN = false /\ fge NaN one = false
  /\ fge zero (S754_zero true) = true.
Proof. repeat split; reflexivity. Qed.

Example parseInt_values :
  parseInt "1980" = KInt 1980
  /\ parseInt " 1980 [YR1980]" = KInt 1980
  /\ parseInt "0x7BC" = KInt 1980
  /\ parseInt "-0" = KInt 0
  /\ parseInt "year" = KNaN
  /\ parseInt "9007199254740993" = KInt 9007199254740992.
Proof. repeat split; vm_compute; reflexivity. Qed.

Example keyToString_values :
  keyToString (KInt 1980) = "1980"
  /\ keyToString (KInt (-15)) = "-15"
  /\ keyToString (parseInt "-0") = "0"
  /\ keyToString (parseInt "year") = "NaN"
  /\ keyToString (parseInt "18446744073709551616") = "18446744073709552000"
  /\ keyToString (parseInt "1000000000000000000000") = "1e+21"
  /\ keyToString (parseInt "99999999999999999999999") = "1e+23"
  /\ keyToString (keyOfInteger (2 ^ 70)) = "1.1805916207174113e+21"
  /\ keyToString (keyOfInteger (- 2 ^ 80)) = "-1.2089258196146292e+24".
Proof. repeat split; vm_compute; reflexivity. Qed.

Example split_values :
  JsString.split separator (String.concat separator ["a"; "b"; ""; "c"])
  = ["a"; "b"; ""; "c"]
  /\ JsString.split separator "" = [""]
  /\ JsString.split "aa" "aaa" = [""; "a"].
Proof. repeat split; vm_compute; reflexivity. Qed.

(** The slice taken by [parseLine] ends at the last quote only when the
    first quote opens the line. *)
Example parseLine_values :
  parseLine (csvLine ["a"; "b"] ",") separator = ["a"; "b"]
  /\ parseLine (" " ++ csvLine ["a"; "b"] "") separator
     = ["a"; "b" ++ JsString.dquote]
  /\ parseLine "no quote" separator = [""].
Proof. repeat split; vm_compute; reflexivity. Qed.

(** Enumeration order of an object: indices ascending, then the rest. *)
Example keys_order :
  keys (setProp (KInt 5) "e"
         (setProp KNaN "d"
           (setProp (KInt 7) "c"
             (setProp (KInt (-1)) "b"
               (setProp (KInt 9) "a" [])))))
  = [KInt 5; KInt 7; KInt 9; KInt (-1); KNaN].
Proof. vm_compute. reflexivity. Qed.

(* ================================================================== *)
(** * Property names and objects: basic facts *)
(* ================================================================== *)

Lemma key_eqb_eq (a b : PropertyKey) : key_eqb a b = true <-> a = b.
Proof.
  destruct a as [|s|x], b as [|t|y]; simpl; split; intro H;
    try discriminate; try reflexivity.
  - apply Bool.eqb_prop in H. now subst.
  - injection H as ->. apply Bool.eqb_reflx.
  - apply Z.eqb_eq in H. now subst.
  - injection H as ->. apply Z.eqb_refl.
Qed.

Lemma key_eqb_refl (a : PropertyKey) : key_eqb a a = true.
Proof. now apply key_eqb_eq. Qed.

Lemma key_eqb_neq (a b : PropertyKey) : key_eqb a b = false <-> a <> b.
Proof.
  split.
  - intros H E. apply key_eqb_eq in E. congruence.
  - intro H. destruct (key_eqb a b) eqn:E; [|reflexivity].
    apply key_eqb_eq in E. contradiction.
Qed.

Section ObjectFacts.
Context {V : Type}.
Implicit Types (o : JsObject.t V) (k : PropertyKey) (v : V).

Lemma getProp_In k o : (exists v, getProp k o = Some v) <-> In k (keys o).
Proof.
  induction o as [|[k' v'] o IH]; simpl.
  - split; [intros [v H]; discriminate | intros []].
  - destruct (key_eqb k k') eqn:E.
    + apply key_eqb_eq in E. subst. split; eauto.
    + apply key_eqb_neq in E. rewrite IH. split; [auto|].
      intros [H|H]; [congruence|assumption].
Qed.

Lemma hasProp_In k o : hasProp k o = true <-> In k (keys o).
Proof.
  rewrite <- getProp_In. unfold hasProp.
  destruct (getProp k o); split; eauto; try discriminate.
  intros [v H]. discriminate.
Qed.

Lemma hasProp_not_In k o : hasProp k o = false <-> ~ In k (keys o).
Proof.
  rewrite <- hasProp_In. destruct (hasProp k o); split; congruence.
Qed.

Lemma keys_update k v o : keys (update k v o) = keys o.
Proof.
  induction o as [|[k' v'] o IH]; simpl; [reflexivity|].
  destruct (key_eqb k k'); simpl; congruence.
Qed.

Lemma In_keys_create k v o k' :
  In k' (keys (create k v o)) <-> k' = k \/ In k' (keys o).
Proof.
  induction o as [|[k1 v1] o IH]; simpl.
  - intuition congruence.
  - destruct (isArrayIndex k && _); simpl.
    + intuition congruence.
    + rewrite IH. intuition congruence.
Qed.

Lemma length_create k v o : List.length (create k v o) = S (List.length o).
Proof.
  induction o as [|[k1 v1] o IH]; simpl; [reflexivity|].
  destruct (isArrayIndex k && _); simpl; congruence.
Qed.

Lemma NoDup_keys_create k v o :
  ~ In k (keys o) -> NoDup (keys o) -> NoDup (keys (create k v o)).
Proof.
  induction o as [|[k1 v1] o IH]; simpl; intros Hk Ho.
  - constructor; [intros []|constructor].
  - destruct (isArrayIndex k && _); simpl.
    + constructor; [simpl; exact Hk | exact Ho].
    + inversion Ho as [|? ? Hn Ho']; subst.
      constructor.
      * rewrite In_keys_create. intuition congruence.
      * apply IH; [tauto | assumption].
Qed.

Lemma In_keys_setProp k v o k' :
  In k' (keys (setProp k v o)) <-> k' = k \/ In k' (keys o).
Proof.
  unfold setProp. destruct (hasProp k o) eqn:E.
  - rewrite keys_update. apply hasProp_In in E.
    split; [auto | intros [->|H]; assumption].
  - apply In_keys_create.
Qed.

Lemma NoDup_keys_setProp k v o :
  NoDup (keys o) -> NoDup (keys (setProp k v o)).
Proof.
  unfold setProp. destruct (hasProp k o) eqn:E; intro H.
  - now rewrite keys_update.
  - apply NoDup_keys_create; [now apply hasProp_not_In | assumption].
Qed.

Lemma length_setProp_new k v o :
  ~ In k (keys o) -> List.length (setProp k v o) = S (List.length o).
Proof.
  intro H. unfold setProp. apply hasProp_not_In in H. rewrite H.
  apply length_create.
Qed.

Lemma getProp_update_same k v o :
  In k (keys o) -> getProp k (update k v o) = Some v.
Proof.
  induction o as [|[k1 v1] o IH]; simpl; [intros []|].
  intros H. destruct (key_eqb k k1) eqn:E; simpl; rewrite E.
  - reflexivity.
  - apply IH. apply key_eqb_neq in E. destruct H; congruence.
Qed.

Lemma getProp_update_other k v o k' :
  k' <> k -> getProp k' (update k v o) = getProp k' o.
Proof.
  intro Hne. induction o as [|[k1 v1] o IH]; simpl; [reflexivity|].
  destruct (key_eqb k k1) eqn:E; simpl.
  - apply key_eqb_eq in E. subst k1.
    apply key_eqb_neq in Hne. now rewrite Hne.
  - destruct (key_eqb k' k1); [reflexivity | exact IH].
Qed.

Lemma getProp_create_same k v o :
  ~ In k (keys o) -> getProp k (create k v o) = Some v.
Proof.
  induction o as [|[k1 v1] o IH]; simpl; intro H.
  - now rewrite key_eqb_refl.
  - destruct (isArrayIndex k && _); simpl.
    + now rewrite key_eqb_refl.
    + destruct (key_eqb k k1) eqn:E.
      * apply key_eqb_eq in E. subst k1. exfalso. apply H. now left.
      * apply IH. intro Hin. apply H. now right.
Qed.

Lemma getProp_create_other k v o k' :
  k' <> k -> getProp k' (create k v o) = getProp k' o.
Proof.
  intro Hne. induction o as [|[k1 v1] o IH]; simpl.
  - apply key_eqb_neq in Hne. now rewrite Hne.
  - destruct (isArrayIndex k && _); simpl.
    + apply key_eqb_neq in Hne. now rewrite Hne.
    + destruct (key_eqb k' k1); [reflexivity | exact IH].
Qed.

Lemma getProp_setProp_same k v o : getProp k (setProp k v o) = Some v.
Proof.
  unfold setProp. destruct (hasProp k o) eqn:E.
  - apply getProp_update_same. now apply hasProp_In.
  - apply getProp_create_same. now apply hasProp_not_In.
Qed.

Lemma getProp_setProp_other k v o k' :
  k' <> k -> getProp k' (setProp k v o) = getProp k' o.
Proof.
  intro H. unfold setProp. destruct (hasProp k o).
  - now apply getProp_update_other.
  - now apply getProp_create_other.
Qed.

End ObjectFacts.

(* ================================================================== *)
(** * Reading the data file: facts *)
(* ================================================================== *)

Lemma split_go_nonempty (sep : string) (s : string) :
  forall skip cur, JsString.split_go sep skip cur s <> [].
Proof.
  induction s as [|c s IH]; intros skip cur.
  - discriminate.
  - cbn [JsString.split_go].
    destruct skip as [|k]; [|apply IH].
    destruct (prefix sep (String c s)); [discriminate | apply IH].
Qed.

Lemma parseLine_nonempty (line : string) : parseLine line separator <> [].
Proof. unfold parseLine, separator, JsString.split. simpl. apply split_go_nonempty. Qed.

Lemma parseLine_length_pos (line : string) :
  (List.length (parseLine line separator) =? 0)%nat = false.
Proof.
  pose proof (parseLine_nonempty line) as H.
  destruct (parseLine line separator); [contradiction | reflexivity].
Qed.

(** The four cases of the line handler. *)

Lemma onLine_header (st : Reader) (input c0 : string) (cols : list string) :
  gotHeader st = false ->
  parseLine input separator = c0 :: cols ->
  String.eqb c0 "Country Name" = true ->
  onLine st input =
    {| gotHeader := true;
       this := {| years := years (this st) ++ skipn 4 (c0 :: cols);
                  indicators := indicators (this st) |};
       console := console st |}.
Proof.
  intros Hg Hp Hc. unfold onLine. rewrite Hp, Hg, Hc.
  rewrite orb_true_r. reflexivity.
Qed.

Lemma onLine_before_header (st : Reader) (input c0 : string) (cols : list string) :
  gotHeader st = false ->
  parseLine input separator = c0 :: cols ->
  String.eqb c0 "Country Name" = false ->
  onLine st input = st.
Proof.
  intros Hg Hp Hc. unfold onLine. rewrite Hp, Hg, Hc.
  rewrite orb_true_r. reflexivity.
Qed.

Lemma onLine_short (st : Reader) (input : string) :
  gotHeader st = true ->
  (List.length (parseLine input separator) < List.length (years (this st)) + 4)%nat ->
  onLine st input =
    {| gotHeader := true;
       this := this st;
       console := console st ++ [ConsoleLog ["ignored invalid line : "; input]] |}.
Proof.
  intros Hg Hlen. unfold onLine. cbv zeta.
  apply Nat.ltb_lt in Hlen.
  rewrite parseLine_length_pos, Hg, Hlen. reflexivity.
Qed.

Lemma onLine_row (st : Reader) (input : string) :
  gotHeader st = true ->
  (List.length (years (this st)) + 4 <= List.length (parseLine input separator))%nat ->
  onLine st input =
    {| gotHeader := true;
       this := addIndicator
                 {| country := col (parseLine input separator) 0;
                    countryCode := col (parseLine input separator) 1;
                    name := col (parseLine input separator) 2;
                    code := col (parseLine input separator) 3;
                    values := fillValues (years (this st))
                                         (parseLine input separator) 4 [] |}
                 (this st);
       console := console st |}.
Proof.
  intros Hg Hlen. unfold onLine. cbv zeta.
  apply Nat.ltb_ge in Hlen.
  rewrite parseLine_length_pos, Hg, Hlen. reflexivity.
Qed.

(** Every column the row builder reads exists. *)
Lemma col_defined (cols : list string) (n i : nat) :
  (n + 4 <= List.length cols)%nat -> (i < n + 4)%nat ->
  nth_error cols i = Some (col cols i).
Proof.
  intros Hlen Hi. unfold col. apply nth_error_nth'. lia.
Qed.

(** Before the header: lines are skipped up to the header line. *)
Lemma fold_onLine_to_header (lines : list string) :
  forall st, gotHeader st = false ->
    match headerOf lines with
    | None => fold_left onLine lines st = st
    | Some cols =>
        exists rest,
          fold_left onLine lines st =
            fold_left onLine rest
              {| gotHeader := true;
                 this := {| years := years (this st) ++ skipn 4 cols;
                            indicators := indicators (this st) |};
                 console := console st |}
    end.
Proof.
  induction lines as [|l lines IH]; intros st Hg; cbn [headerOf fold_left].
  - reflexivity.
  - destruct (parseLine l separator) as [|c0 cols] eqn:Hp.
    + exfalso. exact (parseLine_nonempty l Hp).
    + destruct (String.eqb c0 "Country Name") eqn:Hc.
      * exists lines. now rewrite (onLine_header st l c0 cols).
      * rewrite (onLine_before_header st l c0 cols) by assumption.
        now apply IH.
Qed.

(** What one call of [fillValues] adds to an object. *)
Lemma fillValues_spec (ys cols : list string) :
  forall index vals,
    NoDup (keys vals) ->
    NoDup (map parseInt ys) ->
    (forall k, In k (map parseInt ys) -> ~ In k (keys vals)) ->
    let o := fillValues ys cols index vals in
    List.length o = (List.length vals + List.length ys)%nat
    /\ NoDup (keys o)
    /\ (forall k, In k (keys o) <-> In k (keys vals) \/ In k (map parseInt ys)).
Proof.
  induction ys as [|y ys IH]; intros index vals Hv Hys Hdis; simpl.
  - split; [lia | split; [assumption | intro k; tauto]].
  - inversion Hys as [|? ? Hny Hys']; subst.
    assert (Hfresh : ~ In (parseInt y) (keys vals)) by (apply Hdis; now left).
    destruct (IH (S index) (setProp (parseInt y) (col cols index) vals))
      as (Hlen & Hnd & Hkeys).
    + now apply NoDup_keys_setProp.
    + assumption.
    + intros k Hk. rewrite In_keys_setProp. intros [->|Hin].
      * contradiction.
      * apply (Hdis k); [now right | assumption].
    + split; [|split; [|intro k; split]].
      * rewrite Hlen, length_setProp_new by assumption. lia.
      * assumption.
      * intro H. apply Hkeys in H. rewrite In_keys_setProp in H.
        destruct H as [[->|H]|H]; auto.
      * intro H. apply Hkeys. rewrite In_keys_setProp.
        destruct H as [H|[H|H]]; auto.
Qed.

(** After the header: the year list is fixed and every indicator added
    is built from the year list by [fillValues]. *)
Lemma fold_onLine_rows (lines : list string) :
  forall st, gotHeader st = true ->
    let st' := fold_left onLine lines st in
    years (this st') = years (this st)
    /\ (forall i, In i (indicators (this st')) ->
                  In i (indicators (this st)) \/ builtFrom (years (this st)) i).
Proof.
  induction lines as [|l lines IH]; intros st Hg; simpl.
  - auto.
  - destruct (Nat.lt_ge_cases (List.length (parseLine l separator))
                              (List.length (years (this st)) + 4)) as [Hs|Hs].
    + rewrite (onLine_short st l Hg Hs).
      destruct (IH {| gotHeader := true; this := this st;
                      console := console st ++ [ConsoleLog ["ignored invalid line : "; l]] |}
                   eq_refl) as [Hy Hi].
      simpl in *. auto.
    + rewrite (onLine_row st l Hg Hs).
      match goal with |- context [fold_left onLine lines ?s] =>
        destruct (IH s eq_refl) as [Hy Hi] end.
      simpl in *. split; [assumption|].
      intros i Hin. destruct (Hi i Hin) as [H|H]; [|now right].
      apply in_app_or in H. destruct H as [H|[<-|[]]]; [now left|].
      right. now eexists.
Qed.

(** C6.  Parsing the sample header line with [parseLine] (the text from
    one past the first quote, of length the index of the last quote
    minus one, split on quote-comma-quote) gives the four fixed columns
    followed by the two year labels, and the fields from index 4 on,
    which the reader stores as [years], are ["1980"] and ["1981"]. *)
Theorem header_years_roundtrip :
  JsString.substr (JsString.indexOf JsString.dquote sampleHeader + 1)
                  (JsString.lastIndexOf JsString.dquote sampleHeader - 1)
                  sampleHeader
  = String.concat separator
      ["Country Name"; "Country Code"; "Indicator Name"; "Indicator Code";
       "1980"; "1981"]
  /\ parseLine sampleHeader separator
     = ["Country Name"; "Country Code"; "Indicator Name"; "Indicator Code";
        "1980"; "1981"]
  /\ skipn 4 (parseLine sampleHeader separator) = ["1980"; "1981"]
  /\ years (readDataFile new_Report [sampleHeader]) = ["1980"; "1981"].
Proof. repeat split; vm_compute; reflexivity. Qed.

(** C5.  Once the header is captured, a line whose parsed field count
    is below [years.length + 4] only adds the diagnostic to the console:
    the report, hence [indicators], is unchanged, the reader stays in
    its state, and the following lines are handled from there. *)
Theorem short_row_dropped (st : Reader) (input : string) (rest : list string) :
  gotHeader st = true ->
  (List.length (parseLine input separator) < List.length (years (this st)) + 4)%nat ->
  let st' := {| gotHeader := true;
                this := this st;
                console := console st
                           ++ [ConsoleLog ["ignored invalid line : "; input]] |} in
  onLine st input = st'
  /\ indicators (this (onLine st input)) = indicators (this st)
  /\ fold_left onLine (input :: rest) st = fold_left onLine rest st'.
Proof.
  intros Hg Hlen st'. pose proof (onLine_short st input Hg Hlen) as H.
  fold st' in H. repeat split.
  - exact H.
  - now rewrite H.
  - cbn [fold_left]. now rewrite H.
Qed.

Lemma short_row_dropped_witness :
  let st := readLines new_Report [sampleHeader] in
  let input := csvLine ["Chad"; "TCD"; "X"; "x"; "3"] "," in
  onLine st input =
    {| gotHeader := true; this := this st;
       console := console st ++ [ConsoleLog ["ignored invalid line : "; input]] |}
  /\ indicators (this (onLine st input)) = indicators (this st)
  /\ fold_left onLine [input; input] st
     = fold_left onLine [input]
         {| gotHeader := true; this := this st;
            console := console st ++ [ConsoleLog ["ignored invalid line : "; input]] |}.
Proof.
  intros st input.
  apply (short_row_dropped st input [input]).
  - vm_compute. reflexivity.
  - vm_compute. lia.
Defined.

(** C4.  For a well-formed file read into a new report, [years] has as
    many elements as the header has columns beyond the first four, and
    the [values] of every indicator has exactly [years.length] entries,
    its keys being the parsed year labels. *)
Theorem ingestion_invariant (lines : list string) :
  wellFormed lines ->
  exists header,
    headerOf lines = Some header
    /\ let r := readDataFile new_Report lines in
       years r = skipn 4 header
       /\ Z.of_nat (List.length (years r)) = Z.of_nat (List.length header) - 4
       /\ forall i, In i (indicators r) ->
            List.length (values i) = List.length (years r)
            /\ NoDup (keys (values i))
            /\ (forall k, In k (keys (values i)) <-> In k (map parseInt (years r))).
Proof.
  unfold wellFormed. intro Hwf.
  destruct (headerOf lines) as [header|] eqn:Hh; [|contradiction].
  destruct Hwf as [Hlen Hnd]. exists header. split; [reflexivity|].
  unfold readDataFile, readLines.
  pose proof (fold_onLine_to_header lines
                {| gotHeader := false; this := new_Report; console := [] |}
                eq_refl) as Hpre.
  rewrite Hh in Hpre. destruct Hpre as [rest Hpre]. rewrite Hpre.
  cbn [this years indicators new_Report console app].
  match goal with |- context [fold_left onLine rest ?s] =>
    destruct (fold_onLine_rows rest s eq_refl) as [Hy Hi] end.
  cbn [this years indicators] in Hy, Hi. cbv zeta. rewrite Hy.
  split; [reflexivity|]. split.
  - rewrite length_skipn. lia.
  - intros i Hin. destruct (Hi i Hin) as [[]|[cols Hv]].
    rewrite Hv.
    destruct (fillValues_spec (skipn 4 header) cols 4 []) as (Hl & Hn & Hk).
    + constructor.
    + assumption.
    + intros k _ [].
    + split; [exact Hl | split; [exact Hn|]].
      intro k. rewrite Hk. simpl. tauto.
Qed.

Lemma ingestion_invariant_witness :
  exists header,
    headerOf gapFile = Some header
    /\ let r := readDataFile new_Report gapFile in
       years r = skipn 4 header
       /\ Z.of_nat (List.length (years r)) = Z.of_nat (List.length header) - 4
       /\ forall i, In i (indicators r) ->
            List.length (values i) = List.length (years r)
            /\ NoDup (keys (values i))
            /\ (forall k, In k (keys (values i)) <-> In k (map parseInt (years r))).
Proof.
  apply (ingestion_invariant gapFile).
  vm_compute. split.
  - lia.
  - constructor.
    + intros [H|[]]. discriminate H.
    + constructor; [intros [] | constructor].
Defined.

(** Outside the well-formed files: two year columns with the same label
    share one entry of [values], which keeps the later cell. *)
Lemma repeated_year_label_shares_an_entry :
  let r := readDataFile new_Report repeatedYearFile in
  years r = ["1980"; "1980"]
  /\ map values (indicators r) = [[(KInt 1980, "6")]].
Proof. intro r. split; vm_compute; reflexivity. Qed.

(* ================================================================== *)
(** * The country query: facts *)
(* ================================================================== *)

Lemma In_yearRange (startYear endYear y : Z) :
  In y (yearRange startYear endYear) <-> startYear <= y <= endYear.
Proof.
  unfold yearRange. rewrite in_map_iff. split.
  - intros (k & <- & Hk). apply in_seq in Hk. lia.
  - intro H. exists (Z.to_nat (y - startYear)). split; [lia|].
    apply in_seq. lia.
Qed.

Lemma isEmptyString_true (v : option string) :
  isEmptyString v = true <-> v = Some "".
Proof.
  destruct v as [[|c s]|]; simpl; split; congruence.
Qed.

(** A summing loop returns early exactly when it meets an empty string. *)
Lemma totalOver_None (vals : JsObject.t string) (ys : list Z) :
  forall acc,
    totalOver vals ys acc = None
    <-> exists y, In y ys /\ getProp (KInt y) vals = Some "".
Proof.
  induction ys as [|i ys IH]; intro acc; cbn [totalOver].
  - split; [discriminate | intros (y & [] & _)].
  - destruct (isEmptyString (getProp (KInt i) vals)) eqn:E.
    + apply isEmptyString_true in E. split; [|reflexivity].
      intros _. exists i. split; [now left | assumption].
    + rewrite IH. split.
      * intros (y & Hy & Hv). exists y. split; [now right | assumption].
      * intros (y & [->|Hy] & Hv).
        -- apply isEmptyString_true in Hv. congruence.
        -- now exists y.
Qed.

Lemma totalOver_disqualified (startYear endYear : Z) (i : Indicator) (acc : number) :
  totalOver (values i) (yearRange startYear endYear) acc = None
  <-> disqualified startYear endYear i.
Proof.
  rewrite totalOver_None. unfold disqualified.
  split; intros (y & Hy & Hv); exists y; split; try assumption;
    now apply In_yearRange.
Qed.

Lemma totalOver_qualified (startYear endYear : Z) (i : Indicator) (acc : number) :
  ~ disqualified startYear endYear i ->
  exists t, totalOver (values i) (yearRange startYear endYear) acc = Some t.
Proof.
  intro H.
  destruct (totalOver (values i) (yearRange startYear endYear) acc) as [t|] eqn:E.
  - now exists t.
  - apply totalOver_disqualified in E. contradiction.
Qed.

Lemma complete_not_disqualified (startYear endYear : Z) (i : Indicator) :
  complete startYear endYear i -> ~ disqualified startYear endYear i.
Proof.
  intros Hc (y & Hy & Hv). destruct (Hc y Hy) as (v & Hv' & Hne). congruence.
Qed.

(** The reducer, case by case. *)

Lemma higher_candidate_disqualified (startYear endYear : Z) (p c : Indicator) :
  disqualified startYear endYear c ->
  higher startYear endYear (Some p) c = Some p.
Proof.
  intro H. unfold higher.
  apply (totalOver_disqualified _ _ _ zero) in H. now rewrite H.
Qed.

Lemma higher_winner_disqualified (startYear endYear : Z) (p c : Indicator) :
  ~ disqualified startYear endYear c ->
  disqualified startYear endYear p ->
  higher startYear endYear (Some p) c = Some c.
Proof.
  intros Hc Hp. unfold higher.
  destruct (totalOver_qualified _ _ _ zero Hc) as [t Ht]. rewrite Ht.
  apply (totalOver_disqualified _ _ _ zero) in Hp. now rewrite Hp.
Qed.

Lemma higher_choice (startYear endYear : Z) (p c : Indicator) :
  higher startYear endYear (Some p) c = Some p
  \/ (higher startYear endYear (Some p) c = Some c
      /\ ~ disqualified startYear endYear c).
Proof.
  unfold higher.
  destruct (totalOver (values c) (yearRange startYear endYear) zero)
    as [tc|] eqn:Ec; [|now left].
  assert (Hc : ~ disqualified startYear endYear c).
  { intro H. apply (totalOver_disqualified _ _ _ zero) in H. congruence. }
  destruct (totalOver (values p) (yearRange startYear endYear) zero) as [tp|].
  - destruct (fge tc tp); auto.
  - auto.
Qed.

Lemma higher_qualified_candidate (startYear endYear : Z) (p c : Indicator) :
  ~ disqualified startYear endYear c ->
  higher startYear endYear (Some p) c = Some c
  \/ (higher startYear endYear (Some p) c = Some p
      /\ ~ disqualified startYear endYear p).
Proof.
  intro Hc. unfold higher.
  destruct (totalOver_qualified _ _ _ zero Hc) as [tc Ec]. rewrite Ec.
  destruct (totalOver (values p) (yearRange startYear endYear) zero)
    as [tp|] eqn:Ep; [|now left].
  destruct (fge tc tp); [now left|]. right. split; [reflexivity|].
  intro H. apply (totalOver_disqualified _ _ _ zero) in H. congruence.
Qed.

(** The reduction ends on a qualified indicator as soon as the running
    winner is qualified or a qualified candidate is still to come. *)
Lemma fold_higher_qualified (startYear endYear : Z) (l : list Indicator) :
  forall acc,
    (exists p, acc = Some p /\ ~ disqualified startYear endYear p)
    \/ (exists c, In c l /\ ~ disqualified startYear endYear c) ->
    exists w,
      fold_left (higher startYear endYear) l acc = Some w
      /\ ~ disqualified startYear endYear w
      /\ (acc = Some w \/ In w l).
Proof.
  induction l as [|c l IH]; intros acc H; cbn [fold_left].
  - destruct H as [(p & -> & Hp)|(c & [] & _)]. exists p. auto.
  - assert (Hnext :
      (exists p, higher startYear endYear acc c = Some p
                 /\ ~ disqualified startYear endYear p
                 /\ (acc = Some p \/ p = c))
      \/ (exists c', In c' l /\ ~ disqualified startYear endYear c')).
    { destruct H as [(p & -> & Hp)|(c' & [<-|Hin] & Hc')].
      - left. destruct (higher_choice startYear endYear p c) as [E|[E Hc]].
        + exists p. auto.
        + exists c. auto.
      - left. destruct acc as [p|].
        + destruct (higher_qualified_candidate startYear endYear p c Hc')
            as [E|[E Hp]].
          * exists c. auto.
          * exists p. auto.
        + exists c. auto.
      - right. now exists c'. }
    destruct (IH (higher startYear endYear acc c)) as (w & Hw & Hq & Hfrom).
    + destruct Hnext as [(p & E & Hp & _)|Hr]; [left; now exists p | now right].
    + exists w. split; [assumption | split; [assumption|]].
      destruct Hfrom as [E|Hin]; [|right; now right].
      destruct acc as [p|].
      * destruct (higher_choice startYear endYear p c) as [E'|[E' _]];
          rewrite E' in E; injection E as <-; [now left | right; now left].
      * cbn in E. injection E as <-. right. now left.
Qed.

(** When every later candidate is disqualified the first one stays. *)
Lemma fold_higher_all_disqualified (startYear endYear : Z) (l : list Indicator) :
  forall p,
    (forall c, In c l -> disqualified startYear endYear c) ->
    fold_left (higher startYear endYear) l (Some p) = Some p.
Proof.
  induction l as [|c l IH]; intros p H; cbn [fold_left]; [reflexivity|].
  rewrite higher_candidate_disqualified by (apply H; now left).
  apply IH. intros c' Hc'. apply H. now right.
Qed.

Lemma NoDup_map_injective {A B : Type} (f : A -> B) (l : list A) :
  NoDup (map f l) -> forall a b, In a l -> In b l -> f b = f a -> b = a.
Proof.
  induction l as [|x l IH]; cbn [map]; intros Hnd a b Ha Hb E; [contradiction|].
  inversion Hnd as [|? ? Hx Hl]; subst.
  destruct Ha as [<-|Ha], Hb as [<-|Hb]; auto.
  - exfalso. apply Hx. rewrite <- E. now apply in_map.
  - exfalso. apply Hx. rewrite E. now apply in_map.
Qed.

Lemma matching_name (indicatorName : string) (i : Indicator) :
  matching indicatorName i = true <-> name i = indicatorName.
Proof. unfold matching. apply String.eqb_eq. Qed.

(* ================================================================== *)
(** * Binary64 comparison: facts *)
(* ================================================================== *)

Lemma SFcompare_antisym (x y : spec_float) :
  SFcompare y x = option_map CompOpp (SFcompare x y).
Proof.
  destruct x as [sx|sx| |sx mx ex], y as [sy|sy| |sy my ey]; simpl;
    try reflexivity;
    try (destruct sx; reflexivity); try (destruct sy; reflexivity);
    try (destruct sx, sy; reflexivity).
  f_equal. fold (Pos.compare my mx). fold (Pos.compare mx my).
  rewrite (Z.compare_antisym ex ey), (Pos.compare_antisym mx my).
  destruct sx, sy; simpl; try reflexivity;
    destruct (ex ?= ey); simpl; try reflexivity.
Qed.

Lemma SFcompare_defined (x y : spec_float) :
  x <> S754_nan -> y <> S754_nan -> exists c, SFcompare x y = Some c.
Proof.
  intros Hx Hy.
  destruct x as [sx|sx| |sx mx ex], y as [sy|sy| |sy my ey]; simpl;
    try contradiction; eauto.
Qed.

Lemma SFcompare_refl (x : spec_float) :
  x <> S754_nan -> SFcompare x x = Some Eq.
Proof.
  intro Hx. destruct x as [sx|sx| |sx mx ex]; simpl; try contradiction;
    try reflexivity.
  - now destruct sx.
  - fold (Pos.compare mx mx).
    rewrite Z.compare_refl, Pos.compare_refl. now destruct sx.
Qed.

Lemma SFleb_trans (x y z : spec_float) :
  SFleb x y = true -> SFleb y z = true -> SFleb x z = true.
Proof.
  unfold SFleb.
  destruct x as [sx|sx| |sx mx ex], y as [sy|sy| |sy my ey],
           z as [sz|sz| |sz mz ez]; simpl;
    try discriminate; try reflexivity;
    try (destruct sx; simpl; (discriminate || reflexivity));
    try (destruct sy; simpl; (discriminate || reflexivity));
    try (destruct sz; simpl; (discriminate || reflexivity));
    try (destruct sx, sy; simpl; (discriminate || reflexivity));
    try (destruct sx, sz; simpl; (discriminate || reflexivity));
    try (destruct sy, sz; simpl; (discriminate || reflexivity));
    try (destruct sx, sy, sz; simpl; (discriminate || reflexivity)).
  all: fold (Pos.compare mx my); fold (Pos.compare my mz);
    fold (Pos.compare mx mz).
  all: destruct sx, sy, sz; try discriminate; try reflexivity;
    destruct (Z.compare_spec ex ey), (Z.compare_spec ey ez),
             (Z.compare_spec ex ez);
    try discriminate; try reflexivity; try lia;
    destruct (Pos.compare_spec mx my), (Pos.compare_spec my mz),
             (Pos.compare_spec mx mz);
    simpl; try discriminate; try reflexivity; try lia.
Qed.

(** Equal numbers are in the relation [>=]. *)
Lemma feq_fge (x y : number) : feq x y = true -> fge x y = true.
Proof.
  unfold feq, fge, SFeqb, SFleb. rewrite (SFcompare_antisym x y).
  destruct (SFcompare x y) as [[]|]; simpl; congruence.
Qed.

Lemma fge_refl (x : number) : x <> NaN -> fge x x = true.
Proof.
  intro H. unfold fge, SFleb. now rewrite SFcompare_refl.
Qed.

Lemma fge_trans (x y z : number) :
  fge x y = true -> fge y z = true -> fge x z = true.
Proof. unfold fge. intros H1 H2. exact (SFleb_trans z y x H2 H1). Qed.

(** On numbers other than [NaN], [>=] is total. *)
Lemma fge_total (x y : number) :
  x <> NaN -> y <> NaN -> fge x y = false -> fge y x = true.
Proof.
  unfold fge, SFleb. intros Hx Hy. rewrite (SFcompare_antisym x y).
  destruct (SFcompare_defined x y Hx Hy) as [c ->].
  destruct c; simpl; congruence.
Qed.

Lemma fge_NaN_l (x : number) : fge NaN x = false.
Proof. unfold fge, SFleb. now destruct x. Qed.

Lemma fge_NaN_r (x : number) : fge x NaN = false.
Proof. reflexivity. Qed.

(* ================================================================== *)
(** * The country query: properties *)
(* ================================================================== *)

(** C1.  If some indicator named [indicatorName] has a non-empty raw
    value for every year of [[startYear, endYear]], the query returns
    the country of an indicator of the report, named [indicatorName],
    that has no empty-string value in the range; when the matching
    indicators have pairwise distinct countries, the country returned
    is therefore that of no matching indicator with an empty-string
    value in the range.  In the reducer the candidate is examined first: a disqualified candidate leaves the
    winner in place whatever the winner holds, and only then a
    disqualified winner gives way to the candidate; in both cases the
    sums play no part. *)
Theorem winner_has_complete_data
        (r : Report) (indicatorName : string) (startYear endYear : Z) :
  (exists i, In i (indicators r) /\ name i = indicatorName
             /\ complete startYear endYear i) ->
  (exists w,
      winner r indicatorName startYear endYear = Some w
      /\ countryOfHighestAverageBewteenYears r indicatorName startYear endYear
         = Ok (country w)
      /\ In w (indicators r) /\ name w = indicatorName
      /\ ~ disqualified startYear endYear w)
  /\ (NoDup (map country (filter (matching indicatorName) (indicators r))) ->
      forall i, In i (indicators r) -> name i = indicatorName ->
                disqualified startYear endYear i ->
                countryOfHighestAverageBewteenYears r indicatorName startYear endYear
                <> Ok (country i))
  /\ (forall p c, disqualified startYear endYear c ->
                  higher startYear endYear (Some p) c = Some p)
  /\ (forall p c, ~ disqualified startYear endYear c ->
                  disqualified startYear endYear p ->
                  higher startYear endYear (Some p) c = Some c).
Proof.
  intros (i & Hin & Hname & Hc).
  assert (Hw : exists w,
      winner r indicatorName startYear endYear = Some w
      /\ countryOfHighestAverageBewteenYears r indicatorName startYear endYear
         = Ok (country w)
      /\ In w (indicators r) /\ name w = indicatorName
      /\ ~ disqualified startYear endYear w); [|split; [exact Hw|split; [|split]]].
  - destruct (fold_higher_qualified startYear endYear
                (filter (matching indicatorName) (indicators r)) None)
      as (w & Hw & Hq & Hfrom).
    + right. exists i. split.
      * apply filter_In. split; [assumption | now apply matching_name].
      * now apply complete_not_disqualified.
    + destruct Hfrom as [E|Hf]; [discriminate|].
      apply filter_In in Hf. destruct Hf as [Hwin Hwname].
      exists w. unfold countryOfHighestAverageBewteenYears, winner.
      rewrite Hw. repeat split; try assumption.
      now apply matching_name.
  - destruct Hw as (w & _ & Hres & Hwin & Hwname & Hq).
    intros Hnd j Hj Hjname Hdis E. rewrite Hres in E. injection E as E.
    assert (j = w); [|subst; contradiction].
    apply (NoDup_map_injective country
             (filter (matching indicatorName) (indicators r))); auto;
      apply filter_In; rewrite matching_name; auto.
  - intros p c. apply higher_candidate_disqualified.
  - intros p c. apply higher_winner_disqualified.
Qed.

Lemma winner_has_complete_data_witness :
  let r := readDataFile new_Report gapFile in
  (exists w,
      winner r "X" 1980 1981 = Some w
      /\ countryOfHighestAverageBewteenYears r "X" 1980 1981 = Ok (country w)
      /\ In w (indicators r) /\ name w = "X"
      /\ ~ disqualified 1980 1981 w)
  /\ (NoDup (map country (filter (matching "X") (indicators r))) ->
      forall i, In i (indicators r) -> name i = "X" ->
                disqualified 1980 1981 i ->
                countryOfHighestAverageBewteenYears r "X" 1980 1981
                <> Ok (country i))
  /\ (forall p c, disqualified 1980 1981 c ->
                  higher 1980 1981 (Some p) c = Some p)
  /\ (forall p c, ~ disqualified 1980 1981 c ->
                  disqualified 1980 1981 p ->
                  higher 1980 1981 (Some p) c = Some c).
Proof.
  intro r. apply (winner_has_complete_data r "X" 1980 1981).
  exists {| country := "Benin"; countryCode := "BEN"; name := "X"; code := "x";
            values := [(KInt 1980, "1"); (KInt 1981, "2")] |}.
  split; [|split].
  - vm_compute. right. left. reflexivity.
  - reflexivity.
  - intros y Hy.
    assert (E : y = 1980 \/ y = 1981) by lia.
    destruct E as [-> | ->]; eexists; (split; [reflexivity | discriminate]).
Defined.

(** C9.  When the matching indicators are [first :: rest] in the order
    of [indicators] and each of them has an empty-string value for some
    year of the range, the query returns the country of [first]. *)
Theorem all_disqualified_first_wins
        (r : Report) (indicatorName : string) (startYear endYear : Z)
        (first : Indicator) (rest : list Indicator) :
  filter (matching indicatorName) (indicators r) = first :: rest ->
  (forall i, In i (first :: rest) -> disqualified startYear endYear i) ->
  countryOfHighestAverageBewteenYears r indicatorName startYear endYear
  = Ok (country first).
Proof.
  intros Hf Hall. unfold countryOfHighestAverageBewteenYears, winner.
  rewrite Hf. cbn [fold_left higher].
  rewrite fold_higher_all_disqualified; [reflexivity|].
  intros c Hc. apply Hall. now right.
Qed.

Lemma all_disqualified_first_wins_witness :
  countryOfHighestAverageBewteenYears allGapsReport "X" 1980 1981 = Ok "Benin".
Proof.
  apply (all_disqualified_first_wins allGapsReport "X" 1980 1981
           {| country := "Benin"; countryCode := "BEN"; name := "X"; code := "x";
              values := [(KInt 1980, "7"); (KInt 1981, "")] |}
           [ {| country := "Chad"; countryCode := "TCD"; name := "X"; code := "x";
                values := [(KInt 1980, ""); (KInt 1981, "9")] |} ]).
  - reflexivity.
  - intros i [<-|[<-|[]]].
    + exists 1981. split; [lia | reflexivity].
    + exists 1980. split; [lia | reflexivity].
Defined.

(** C7.  When neither the winner [p] nor the candidate [c] is
    disqualified and their sums over the range are equal, the reducer
    keeps the candidate; and for the two countries with values
    2, 4 and 5, 1 for 1980 and 1981, both sums being 6, the query over
    1980-1981 returns the second country. *)
Theorem tie_goes_to_candidate
        (startYear endYear : Z) (p c : Indicator) (currentTotal previousTotal : number) :
  totalOver (values c) (yearRange startYear endYear) zero = Some currentTotal ->
  totalOver (values p) (yearRange startYear endYear) zero = Some previousTotal ->
  feq currentTotal previousTotal = true ->
  higher startYear endYear (Some p) c = Some c
  /\ map (fun i => totalOver (values i) (yearRange 1980 1981) zero)
         (indicators tieReport)
     = [Some (parseFloat "6"); Some (parseFloat "6")]
  /\ countryOfHighestAverageBewteenYears tieReport "X" 1980 1981 = Ok "Second".
Proof.
  intros Hc Hp Heq. split; [|split].
  - unfold higher. rewrite Hc, Hp. now rewrite (feq_fge _ _ Heq).
  - vm_compute. reflexivity.
  - vm_compute. reflexivity.
Qed.

Lemma tie_goes_to_candidate_witness :
  higher 1980 1981 (Some tieFirst) tieSecond = Some tieSecond
  /\ map (fun i => totalOver (values i) (yearRange 1980 1981) zero)
         (indicators tieReport)
     = [Some (parseFloat "6"); Some (parseFloat "6")]
  /\ countryOfHighestAverageBewteenYears tieReport "X" 1980 1981 = Ok "Second".
Proof.
  apply (tie_goes_to_candidate 1980 1981 tieFirst tieSecond
                               (parseFloat "6") (parseFloat "6")).
  - vm_compute. reflexivity.
  - vm_compute. reflexivity.
  - vm_compute. reflexivity.
Defined.

(* ================================================================== *)
(** * The year query: facts *)
(* ================================================================== *)

Lemma In_keys_accumulateYear
      (i : Indicator) (averagies : JsObject.t Average) (year k : PropertyKey) :
  In k (keys (accumulateYear i averagies year))
  <-> k = year \/ In k (keys averagies).
Proof.
  unfold accumulateYear.
  set (av1 := if hasProp year averagies then averagies else setProp year _ averagies).
  assert (H1 : In k (keys av1) <-> k = year \/ In k (keys averagies)).
  { subst av1. destruct (hasProp year averagies) eqn:E.
    - apply hasProp_In in E. split; [auto | intros [->|H]; assumption].
    - apply In_keys_setProp. }
  destruct (isEmptyString _); [exact H1|].
  destruct (getProp year av1); [|exact H1].
  rewrite In_keys_setProp. tauto.
Qed.

Lemma In_keys_fold_accumulateYear (i : Indicator) (ys : list PropertyKey) :
  forall averagies k,
    In k (keys (fold_left (accumulateYear i) ys averagies))
    <-> In k (keys averagies) \/ In k ys.
Proof.
  induction ys as [|y ys IH]; intros averagies k; cbn [fold_left].
  - simpl. tauto.
  - rewrite IH, In_keys_accumulateYear. simpl. intuition congruence.
Qed.

Lemma In_keys_fold_accumulate (l : list Indicator) :
  forall averagies k,
    In k (keys (fold_left accumulate l averagies))
    <-> In k (keys averagies) \/ exists i, In i l /\ In k (keys (values i)).
Proof.
  induction l as [|i l IH]; intros averagies k; cbn [fold_left].
  - split; [auto | intros [H|(i & [] & _)]; exact H].
  - rewrite IH. unfold accumulate. rewrite In_keys_fold_accumulateYear.
    split.
    + intros [[H|H]|(j & Hj & Hk)]; eauto.
      * right. exists i. split; [now left | assumption].
      * right. exists j. split; [now right | assumption].
    + intros [H|(j & [<-|Hj] & Hk)]; eauto.
Qed.

(** The years of [averagies] are the years of the matching indicators. *)
Lemma In_keys_averagiesOf (r : Report) (indicatorName : string) (k : PropertyKey) :
  In k (keys (averagiesOf r indicatorName))
  <-> exists i, In i (indicators r) /\ name i = indicatorName
                /\ In k (keys (values i)).
Proof.
  unfold averagiesOf. rewrite In_keys_fold_accumulate. simpl. split.
  - intros [[]|(i & Hi & Hk)]. apply filter_In in Hi.
    exists i. rewrite <- matching_name. tauto.
  - intros (i & Hi & Hn & Hk). right. exists i. split; [|assumption].
    apply filter_In. rewrite matching_name. tauto.
Qed.

(** Every entry of [averagies] keeps its average equal to its total
    divided by its count, from the first value counted on. *)
Lemma averageOk_setProp
      (averagies : JsObject.t Average) (year : PropertyKey) (a : Average) :
  (forall k b, getProp k averagies = Some b -> averageOk b) ->
  averageOk a ->
  forall k b, getProp k (setProp year a averagies) = Some b -> averageOk b.
Proof.
  intros Hall Ha k b Hb.
  destruct (key_eqb k year) eqn:E.
  - apply key_eqb_eq in E. subst k.
    rewrite getProp_setProp_same in Hb. now injection Hb as <-.
  - apply key_eqb_neq in E. rewrite getProp_setProp_other in Hb by assumption.
    now apply (Hall k).
Qed.

Lemma averageOk_accumulateYear
      (i : Indicator) (averagies : JsObject.t Average) (year : PropertyKey) :
  (forall k b, getProp k averagies = Some b -> averageOk b) ->
  forall k b, getProp k (accumulateYear i averagies year) = Some b -> averageOk b.
Proof.
  intro Hall. unfold accumulateYear.
  set (av1 := if hasProp year averagies then averagies else setProp year _ averagies).
  assert (H1 : forall k b, getProp k av1 = Some b -> averageOk b).
  { subst av1. destruct (hasProp year averagies); [exact Hall|].
    apply averageOk_setProp; [exact Hall|]. intro H. discriminate H. }
  destruct (isEmptyString _); [exact H1|].
  destruct (getProp year av1) as [a|]; [|exact H1].
  apply averageOk_setProp; [exact H1|].
  unfold averageOk. cbn [total count avg]. intros ->. reflexivity.
Qed.

Lemma averageOk_averagiesOf (r : Report) (indicatorName : string) :
  forall k b, getProp k (averagiesOf r indicatorName) = Some b -> averageOk b.
Proof.
  unfold averagiesOf.
  assert (H : forall l averagies,
             (forall k b, getProp k averagies = Some b -> averageOk b) ->
             forall k b, getProp k (fold_left accumulate l averagies) = Some b ->
                         averageOk b).
  { induction l as [|i l IH]; intros averagies Hall; cbn [fold_left];
      [exact Hall|].
    apply IH. unfold accumulate.
    generalize (keys (values i)). intro ys. revert averagies Hall.
    induction ys as [|y ys IHy]; intros averagies Hall; cbn [fold_left];
      [exact Hall|].
    apply IHy. now apply averageOk_accumulateYear. }
  apply H. intros k b Hb. discriminate Hb.
Qed.

(** A count above zero is other than zero. *)
Lemma hasData_count (averagies : JsObject.t Average) (k : PropertyKey) :
  hasData averagies k = true ->
  exists a, getProp k averagies = Some a /\ feq (count a) zero = false.
Proof.
  unfold hasData. destruct (getProp k averagies) as [a|]; [|discriminate].
  intro H. exists a. split; [reflexivity|].
  unfold feq, SFeqb. unfold SFltb in H.
  rewrite (SFcompare_antisym zero (count a)).
  destruct (SFcompare zero (count a)) as [[]|]; try discriminate; reflexivity.
Qed.

(** One year of one indicator changes the entry of that year only. *)
Lemma getProp_accumulateYear_other
      (i : Indicator) (averagies : JsObject.t Average) (year k : PropertyKey) :
  k <> year ->
  getProp k (accumulateYear i averagies year) = getProp k averagies.
Proof.
  intro Hne. unfold accumulateYear.
  set (av1 := if hasProp year averagies then averagies else setProp year _ averagies).
  assert (H1 : getProp k av1 = getProp k averagies).
  { subst av1. destruct (hasProp year averagies); [reflexivity|].
    now apply getProp_setProp_other. }
  destruct (isEmptyString _); [exact H1|].
  destruct (getProp year av1); [|exact H1].
  now rewrite getProp_setProp_other.
Qed.

Lemma getProp_fold_accumulateYear_other
      (i : Indicator) (ys : list PropertyKey) (k : PropertyKey) :
  forall averagies,
    ~ In k ys ->
    getProp k (fold_left (accumulateYear i) ys averagies) = getProp k averagies.
Proof.
  induction ys as [|y ys IH]; intros averagies H; cbn [fold_left]; [reflexivity|].
  rewrite IH by (intro Hin; apply H; now right).
  apply getProp_accumulateYear_other. intro E. apply H. now left.
Qed.

Lemma getProp_accumulateYear_same
      (i : Indicator) (averagies : JsObject.t Average) (year : PropertyKey) :
  getProp year (accumulateYear i averagies year)
  = Some (addCell (getProp year averagies) (getProp year (values i))).
Proof.
  unfold accumulateYear, addCell.
  set (a0 := {| total := zero; count := zero; avg := zero |}).
  set (av1 := if hasProp year averagies then averagies
              else setProp year a0 averagies).
  assert (H1 : getProp year av1
               = Some match getProp year averagies with
                      | Some a => a
                      | None => a0
                      end).
  { subst av1. unfold hasProp.
    destruct (getProp year averagies) as [a|] eqn:E; [exact E|].
    apply getProp_setProp_same. }
  destruct (isEmptyString (getProp year (values i))); [exact H1|].
  rewrite H1. apply getProp_setProp_same.
Qed.

Lemma getProp_accumulate (i : Indicator) (averagies : JsObject.t Average)
      (k : PropertyKey) :
  NoDup (keys (values i)) ->
  getProp k (accumulate averagies i)
  = if hasProp k (values i)
    then Some (addCell (getProp k averagies) (getProp k (values i)))
    else getProp k averagies.
Proof.
  intro Hnd. unfold accumulate. destruct (hasProp k (values i)) eqn:E.
  - apply hasProp_In in E. apply in_split in E.
    destruct E as (pre & post & Hsplit). rewrite Hsplit in *.
    apply NoDup_remove_2 in Hnd.
    rewrite fold_left_app. cbn [fold_left].
    rewrite getProp_fold_accumulateYear_other
      by (intro H; apply Hnd, in_or_app; now right).
    rewrite getProp_accumulateYear_same.
    rewrite getProp_fold_accumulateYear_other
      by (intro H; apply Hnd, in_or_app; now left).
    reflexivity.
  - apply hasProp_not_In in E. now apply getProp_fold_accumulateYear_other.
Qed.

(** The entry of a year after the indicators [l], from the entry
    before them: its total and its count continue the running sum and
    the running count over the non-empty cells of the year. *)
Lemma getProp_fold_accumulate (k : PropertyKey) (l : list Indicator) :
  forall averagies,
    (forall i, In i l -> NoDup (keys (values i))) ->
    match getProp k (fold_left accumulate l averagies) with
    | Some a' =>
        let a := match getProp k averagies with
                 | Some a => a
                 | None => {| total := zero; count := zero; avg := zero |}
                 end in
        total a' = fold_left (fun t v => fadd t (parseFloat v)) (cellsOf k l)
                             (total a)
        /\ count a' = fold_left (fun c _ => fadd c one) (cellsOf k l) (count a)
    | None => getProp k averagies = None
    end.
Proof.
  induction l as [|i l IH]; intros averagies Hnd; cbn [fold_left cellsOf].
  - destruct (getProp k averagies); auto.
  - specialize (IH (accumulate averagies i)
                   (fun j Hj => Hnd j (or_intror Hj))).
    rewrite (getProp_accumulate i averagies k) in IH
      by (apply Hnd; now left).
    unfold hasProp in IH.
    destruct (getProp k (values i)) as [v|] eqn:Ev.
    + destruct (getProp k (fold_left accumulate l (accumulate averagies i)))
        as [a'|]; [|discriminate].
      unfold addCell in IH.
      destruct (isEmptyString (Some v)); cbn [fold_left]; exact IH.
    + exact IH.
Qed.

Lemma later_choice (averagies : JsObject.t Average) (x c : PropertyKey) :
  avgOf averagies x <> NaN -> avgOf averagies c <> NaN ->
  let y := later averagies x c in
  (y = x \/ y = c)
  /\ fge (avgOf averagies y) (avgOf averagies x) = true
  /\ fge (avgOf averagies y) (avgOf averagies c) = true.
Proof.
  intros Hx Hc. unfold later.
  destruct (fge (avgOf averagies c) (avgOf averagies x)) eqn:E.
  - repeat split; auto. now apply fge_refl.
  - repeat split; auto; [now apply fge_refl | now apply fge_total].
Qed.

(** Without [NaN] the final reduction ends on a maximal key. *)
Lemma fold_later_max (averagies : JsObject.t Average) (l : list PropertyKey) :
  forall x,
    (forall k, In k (x :: l) -> avgOf averagies k <> NaN) ->
    let y := fold_left (later averagies) l x in
    In y (x :: l)
    /\ forall k, In k (x :: l) ->
                 fge (avgOf averagies y) (avgOf averagies k) = true.
Proof.
  induction l as [|c l IH]; intros x Hnan; cbn [fold_left].
  - split; [now left|]. intros k [<-|[]]. apply fge_refl, Hnan. now left.
  - destruct (later_choice averagies x c) as (Hy & Hgx & Hgc).
    { apply Hnan. now left. }
    { apply Hnan. right. now left. }
    cbv zeta in Hy, Hgx, Hgc.
    destruct (IH (later averagies x c)) as [Hin Hmax].
    { intros k [<-|Hk].
      - destruct Hy as [-> | ->]; apply Hnan; [now left | right; now left].
      - apply Hnan. right. now right. }
    cbv zeta in Hin, Hmax. split.
    + destruct Hin as [E|Hin]; [|right; now right].
      rewrite <- E. destruct Hy as [-> | ->]; [now left | right; now left].
    + assert (Hnext : fge (avgOf averagies (fold_left (later averagies) l
                                                     (later averagies x c)))
                          (avgOf averagies (later averagies x c)) = true)
        by (apply Hmax; now left).
      intros k [<-|[<-|Hk]].
      * exact (fge_trans _ _ _ Hnext Hgx).
      * exact (fge_trans _ _ _ Hnext Hgc).
      * apply Hmax. now right.
Qed.

(* ================================================================== *)
(** * The year query: properties *)
(* ================================================================== *)

(** C2, what the code does by design.  When some matching indicator
    has at least one year, the keys of every matching indicator are
    pairwise distinct (as the keys of an object are) and no stored
    average is [NaN], the query returns a year of [averagies]; when
    that year has data ([count > 0]), its average, the sum of the
    parsed non-empty cells of the year divided by their count, is [>=]
    the average of every year that has data.  For every year with data
    the stored total, count and average are that sum, that count and
    that quotient.  Nothing is said of a returned year without data. *)
Theorem year_of_highest_average (r : Report) (indicatorName : string) :
  let averagies := averagiesOf r indicatorName in
  let candidates := filter (matching indicatorName) (indicators r) in
  (exists i, In i (indicators r) /\ name i = indicatorName /\ values i <> []) ->
  (forall i, In i candidates -> NoDup (keys (values i))) ->
  (forall k, In k (keys averagies) -> avgOf averagies k <> NaN) ->
  exists y,
    yearOfHighestAmongAllCountries r indicatorName = Ok y
    /\ In y (keys averagies)
    /\ (hasData averagies y = true ->
        forall k, hasData averagies k = true ->
                  fge (meanOf y candidates) (meanOf k candidates) = true)
    /\ (forall k, hasData averagies k = true ->
                  exists a, getProp k averagies = Some a
                            /\ total a = sumCells (cellsOf k candidates)
                            /\ count a = countCells (cellsOf k candidates)
                            /\ avg a = meanOf k candidates).
Proof.
  intros averagies candidates (i & Hi & Hn & Hv) Hnd Hnan.
  assert (Hdata : forall k, hasData averagies k = true ->
                  exists a, getProp k averagies = Some a
                            /\ total a = sumCells (cellsOf k candidates)
                            /\ count a = countCells (cellsOf k candidates)
                            /\ avg a = meanOf k candidates).
  { intros k Hk. destruct (hasData_count averagies k Hk) as (a & Ha & Hc).
    exists a. split; [assumption|].
    pose proof (getProp_fold_accumulate k candidates [] Hnd) as H.
    unfold averagies, averagiesOf in Ha. fold candidates in Ha.
    rewrite Ha in H. cbn [getProp total count] in H. destruct H as [Ht Hcnt].
    split; [exact Ht | split; [exact Hcnt|]].
    assert (Hok : averageOk a).
    { apply (averageOk_averagiesOf r indicatorName k).
      unfold averagiesOf. fold candidates. exact Ha. }
    rewrite (Hok Hc). unfold meanOf, sumCells, countCells.
    now rewrite Ht, Hcnt. }
  assert (Hmean : forall k, hasData averagies k = true ->
                            avgOf averagies k = meanOf k candidates).
  { intros k Hk. destruct (Hdata k Hk) as (a & Ha & _ & _ & Havg).
    unfold avgOf. now rewrite Ha. }
  unfold yearOfHighestAmongAllCountries. fold averagies.
  destruct (keys averagies) as [|x l] eqn:Hk.
  - exfalso. destruct (values i) as [|[k v] vs] eqn:Ev; [contradiction|].
    assert (H : In k (keys averagies)).
    { apply In_keys_averagiesOf. exists i. rewrite Ev. simpl. auto. }
    rewrite Hk in H. exact H.
  - cbn [reduce1].
    destruct (fold_later_max averagies l x Hnan) as [Hin Hmax].
    cbv zeta in Hin, Hmax.
    eexists. split; [reflexivity | split; [assumption | split; [|assumption]]].
    intros Hy k Hkd. rewrite <- (Hmean _ Hy), <- (Hmean k Hkd).
    apply Hmax. destruct (hasData_count averagies k Hkd) as (a & Ha & _).
    rewrite <- Hk. apply getProp_In. now exists a.
Qed.

Lemma year_of_highest_average_witness :
  let r := readDataFile new_Report gapFile in
  let averagies := averagiesOf r "X" in
  let candidates := filter (matching "X") (indicators r) in
  exists y,
    yearOfHighestAmongAllCountries r "X" = Ok y
    /\ In y (keys averagies)
    /\ (hasData averagies y = true ->
        forall k, hasData averagies k = true ->
                  fge (meanOf y candidates) (meanOf k candidates) = true)
    /\ (forall k, hasData averagies k = true ->
                  exists a, getProp k averagies = Some a
                            /\ total a = sumCells (cellsOf k candidates)
                            /\ count a = countCells (cellsOf k candidates)
                            /\ avg a = meanOf k candidates).
Proof.
  intros r averagies candidates.
  apply (year_of_highest_average r "X").
  - exists {| country := "Benin"; countryCode := "BEN"; name := "X"; code := "x";
              values := [(KInt 1980, "1"); (KInt 1981, "2")] |}.
    split; [|split].
    + vm_compute. right. left. reflexivity.
    + reflexivity.
    + discriminate.
  - intros i Hi. vm_compute in Hi.
    destruct Hi as [<-|[<-|[<-|[]]]]; cbn [values keys map fst];
      (constructor; [intros [H|[]]; discriminate H
                    | constructor; [intros [] | constructor]]).
  - intros k Hk.
    assert (E : k = KInt 1980 \/ k = KInt 1981).
    { vm_compute in Hk. destruct Hk as [<-|[<-|[]]]; auto. }
    destruct E as [-> | ->]; vm_compute; discriminate.
Defined.

(** On the sample file the two years have data, with averages 4 and
    5.5, and the year returned is 1981. *)
Lemma year_of_highest_average_sample :
  let r := readDataFile new_Report gapFile in
  let candidates := filter (matching "X") (indicators r) in
  yearOfHighestAmongAllCountries r "X" = Ok (KInt 1981)
  /\ map (fun k => hasData (averagiesOf r "X") k) [KInt 1980; KInt 1981]
     = [true; true]
  /\ meanOf (KInt 1980) candidates = parseFloat "4"
  /\ meanOf (KInt 1981) candidates = parseFloat "5.5".
Proof. intros r candidates. repeat split; vm_compute; reflexivity. Qed.

(** A year without data keeps the average 0 it was created with and
    takes part in the final comparison: with negative cells only, the
    year returned is one for which no average was computed. *)
Lemma year_without_data_can_win :
  let r := readDataFile new_Report noDataFile in
  let averagies := averagiesOf r "X" in
  yearOfHighestAmongAllCountries r "X" = Ok (KInt 1981)
  /\ hasData averagies (KInt 1981) = false
  /\ getProp (KInt 1981) averagies
     = Some {| total := zero; count := zero; avg := zero |}
  /\ map (fun k => hasData averagies k) [KInt 1980; KInt 1982] = [true; true]
  /\ map (avgOf averagies) [KInt 1980; KInt 1982]
     = [parseFloat "-4"; parseFloat "-7"].
Proof. intros r averagies. repeat split; vm_compute; reflexivity. Qed.

(** C2 as stated fails on a cell that is not a number.  For a file
    whose only row has 5 for 1980 and the text n/a for 1981, the query
    returns 1980; the year 1981 has count 1 and average [NaN], and
    5 >= [NaN] is false. *)
Lemma non_numeric_value_breaks_maximum :
  let r := readDataFile new_Report nonNumericFile in
  let averagies := averagiesOf r "X" in
  (exists i, In i (indicators r) /\ name i = "X")
  /\ yearOfHighestAmongAllCountries r "X" = Ok (KInt 1980)
  /\ In (KInt 1981) (keys averagies)
  /\ hasData averagies (KInt 1981) = true
  /\ avgOf averagies (KInt 1981) = NaN
  /\ fge (avgOf averagies (KInt 1980)) (avgOf averagies (KInt 1981)) = false
  /\ ~ (forall y, yearOfHighestAmongAllCountries r "X" = Ok y ->
         forall k, k <> y -> hasData averagies k = true ->
                   fge (avgOf averagies y) (avgOf averagies k) = true).
Proof.
  intros r averagies. split; [|split; [|split; [|split; [|split; [|split]]]]].
  - eexists. split; [vm_compute; left; reflexivity | reflexivity].
  - vm_compute. reflexivity.
  - vm_compute. auto.
  - vm_compute. reflexivity.
  - vm_compute. reflexivity.
  - vm_compute. reflexivity.
  - intro H.
    specialize (H (KInt 1980) eq_refl (KInt 1981)).
    assert (E : fge (avgOf averagies (KInt 1980)) (avgOf averagies (KInt 1981))
                = true).
    { apply H; [discriminate | vm_compute; reflexivity]. }
    vm_compute in E. discriminate E.
Qed.

(** A matching indicator without any year (a header of four columns)
    leaves [averagies] empty, and the final reduction throws. *)
Lemma no_year_entries_throws :
  let r := readDataFile new_Report noYearsFile in
  (exists i, In i (indicators r) /\ name i = "X")
  /\ yearOfHighestAmongAllCountries r "X" = Throw TypeError_ReduceOfEmptyArray.
Proof.
  intro r. split.
  - eexists. split; [vm_compute; left; reflexivity | reflexivity].
  - vm_compute. reflexivity.
Qed.

(* ================================================================== *)
(** * Queries without a matching indicator *)
(* ================================================================== *)

Lemma filter_matching_nil (r : Report) (indicatorName : string) :
  (forall i, In i (indicators r) -> name i <> indicatorName) ->
  filter (matching indicatorName) (indicators r) = [].
Proof.
  intro H. induction (indicators r) as [|i l IH]; [reflexivity|].
  cbn [filter]. destruct (matching indicatorName i) eqn:E.
  - apply matching_name in E. exfalso. apply (H i); [now left | assumption].
  - apply IH. intros j Hj. apply H. now right.
Qed.

(** C3, what the code does.  When no indicator is named
    [indicatorName], the country query fails on reading [country] from
    [null] and the year query fails on reducing an empty array with no
    initial value: both are type errors of the run time, neither is an
    error raised by the program. *)
Theorem no_match_throws_type_error
        (r : Report) (indicatorName : string) (startYear endYear : Z) :
  (forall i, In i (indicators r) -> name i <> indicatorName) ->
  countryOfHighestAverageBewteenYears r indicatorName startYear endYear
  = Throw (TypeError_PropertyOfNull "country")
  /\ yearOfHighestAmongAllCountries r indicatorName
     = Throw TypeError_ReduceOfEmptyArray
  /\ ~ explicitError
         (countryOfHighestAverageBewteenYears r indicatorName startYear endYear)
  /\ ~ explicitError (yearOfHighestAmongAllCountries r indicatorName).
Proof.
  intro H. apply filter_matching_nil in H.
  assert (Hc : countryOfHighestAverageBewteenYears r indicatorName startYear endYear
               = Throw (TypeError_PropertyOfNull "country")).
  { unfold countryOfHighestAverageBewteenYears, winner. now rewrite H. }
  assert (Hy : yearOfHighestAmongAllCountries r indicatorName
               = Throw TypeError_ReduceOfEmptyArray).
  { unfold yearOfHighestAmongAllCountries, averagiesOf. now rewrite H. }
  rewrite Hc, Hy. repeat split; try reflexivity;
    intros [message E]; discriminate E.
Qed.

Lemma no_match_throws_type_error_witness :
  let r := readDataFile new_Report gapFile in
  countryOfHighestAverageBewteenYears r "CO2 emissions (kt)" 1980 1990
  = Throw (TypeError_PropertyOfNull "country")
  /\ yearOfHighestAmongAllCountries r "CO2 emissions (kt)"
     = Throw TypeError_ReduceOfEmptyArray
  /\ ~ explicitError
         (countryOfHighestAverageBewteenYears r "CO2 emissions (kt)" 1980 1990)
  /\ ~ explicitError (yearOfHighestAmongAllCountries r "CO2 emissions (kt)").
Proof.
  intro r. apply (no_match_throws_type_error r "CO2 emissions (kt)" 1980 1990).
  intros i Hi. vm_compute in Hi.
  destruct Hi as [<-|[<-|[<-|[]]]]; discriminate.
Defined.

(** C3 as stated fails: on a report without any indicator named
    [Z], neither query raises an error of its own; each one fails on
    the access the claim rules out. *)
Lemma no_match_is_not_an_explicit_error :
  let r := readDataFile new_Report gapFile in
  (forall i, In i (indicators r) -> name i <> "Z")
  /\ countryOfHighestAverageBewteenYears r "Z" 1980 1990
     = Throw (TypeError_PropertyOfNull "country")
  /\ yearOfHighestAmongAllCountries r "Z" = Throw TypeError_ReduceOfEmptyArray
  /\ ~ explicitError (countryOfHighestAverageBewteenYears r "Z" 1980 1990)
  /\ ~ explicitError (yearOfHighestAmongAllCountries r "Z").
Proof.
  intro r. split; [|split; [|split; [|split]]].
  - intros i Hi. vm_compute in Hi.
    destruct Hi as [<-|[<-|[<-|[]]]]; discriminate.
  - vm_compute. reflexivity.
  - vm_compute. reflexivity.
  - intros [message E]. vm_compute in E. discriminate E.
  - intros [message E]. vm_compute in E. discriminate E.
Qed.

(* ================================================================== *)
(** * Sorting and the main program: properties *)
(* ================================================================== *)

(** C10.  With a sort field other than ["name"] and ["code"], [sortBy]
    returns the report as it is: same [indicators], in the same order,
    and same [years]. *)
Theorem sortBy_other_field
        (localeCompare : string -> string -> Z) (sortField : string) (r : Report) :
  sortField <> "name" ->
  sortField <> "code" ->
  sortBy localeCompare sortField r = r
  /\ indicators (sortBy localeCompare sortField r) = indicators r
  /\ years (sortBy localeCompare sortField r) = years r.
Proof.
  intros Hn Hc. unfold sortBy.
  apply String.eqb_neq in Hn. apply String.eqb_neq in Hc.
  rewrite Hn, Hc. auto.
Qed.

Lemma sortBy_other_field_witness :
  sortBy byteOrder "country" allGapsReport = allGapsReport
  /\ indicators (sortBy byteOrder "country" allGapsReport) = indicators allGapsReport
  /\ years (sortBy byteOrder "country" allGapsReport) = years allGapsReport.
Proof.
  apply (sortBy_other_field byteOrder "country" allGapsReport); discriminate.
Defined.

(** C8, what the code does.  When [process.argv] has fewer than three
    entries, that is when there is no positional argument, the program
    prints the two usage lines and exits with status 1; no file is
    opened. *)
Theorem usage_on_missing_argument
        (localeCompare : string -> string -> Z) (argv : list string)
        (fileLines : string -> option (list string)) :
  (List.length argv < 3)%nat ->
  main localeCompare argv fileLines
  = [ ConsoleLog ["Usage : ts-node index.ts <data file path>"];
      ConsoleLog ["Example : ts-node src/index.ts data.csv"];
      ProcessExit 1 ]
  /\ forall path, ~ In (OpenFile path) (main localeCompare argv fileLines).
Proof.
  intro H. unfold main. apply Nat.ltb_lt in H. rewrite H.
  split; [reflexivity|].
  intros path [E|[E|[E|[]]]]; discriminate E.
Qed.

Lemma usage_on_missing_argument_witness :
  main byteOrder ["node"; "index.ts"] noFile
  = [ ConsoleLog ["Usage : ts-node index.ts <data file path>"];
      ConsoleLog ["Example : ts-node src/index.ts data.csv"];
      ProcessExit 1 ]
  /\ forall path, ~ In (OpenFile path) (main byteOrder ["node"; "index.ts"] noFile).
Proof.
  apply (usage_on_missing_argument byteOrder ["node"; "index.ts"] noFile).
  simpl. lia.
Defined.

(** With three entries or more the program goes on to open the file
    named by the third, whatever follows it. *)
Lemma main_opens_first_argument
      (localeCompare : string -> string -> Z) (argv : list string)
      (fileLines : string -> option (list string)) :
  (3 <= List.length argv)%nat ->
  exists rest, main localeCompare argv fileLines = OpenFile (nth 2 argv "") :: rest.
Proof.
  intro H. unfold main. apply Nat.ltb_ge in H. rewrite H. eauto.
Qed.

(** C8 as stated fails for two positional arguments: no usage message
    is printed, the process does not exit with a status, and the file
    named by the first argument is read and reported on. *)
Lemma two_arguments_are_accepted :
  let argv := ["node"; "index.ts"; "data.csv"; "extra.csv"] in
  positionalCount argv = 2
  /\ main byteOrder argv oneFile
     = [ OpenFile "data.csv";
         ConsoleLog ["The country with the highest average Urban population growth (annual %) between 1980 and 1990 : Aruba"];
         ConsoleLog ["The year with the highest averaged CO2 emissions (kt) : 1981"] ]
  /\ ~ In (ConsoleLog ["Usage : ts-node index.ts <data file path>"])
          (main byteOrder argv oneFile)
  /\ (forall status, ~ In (ProcessExit status) (main byteOrder argv oneFile)).
Proof.
  intro argv.
  assert (E : main byteOrder argv oneFile
     = [ OpenFile "data.csv";
         ConsoleLog ["The country with the highest average Urban population growth (annual %) between 1980 and 1990 : Aruba"];
         ConsoleLog ["The year with the highest averaged CO2 emissions (kt) : 1981"] ])
    by (vm_compute; reflexivity).
  rewrite E. split; [|split; [|split]].
  - reflexivity.
  - reflexivity.
  - intros [H|[H|[H|[]]]]; discriminate H.
  - intros status [H|[H|[H|[]]]]; discriminate H.
Qed.

(* ================================================================== *)
(** * Slicing and splitting a line: facts *)
(* ================================================================== *)

Lemma prefix_dquote (c : ascii) (s : string) :
  prefix JsString.dquote (String c s) = Ascii.eqb c (ascii_of_nat 34).
Proof.
  unfold JsString.dquote. cbn [prefix].
  destruct (ascii_dec (ascii_of_nat 34) c) as [<-|Hne].
  - rewrite Ascii.eqb_refl. now destruct s.
  - symmetry. apply Ascii.eqb_neq. congruence.
Qed.

Lemma prefix_separator_other (c : ascii) (s : string) :
  Ascii.eqb c (ascii_of_nat 34) = false ->
  prefix separator (String c s) = false.
Proof.
  intro H. unfold separator, JsString.dquote. cbn [append prefix].
  destruct (ascii_dec (ascii_of_nat 34) c) as [<-|Hne]; [|reflexivity].
  now rewrite Ascii.eqb_refl in H.
Qed.

Lemma quoteFree_app (a b : string) :
  quoteFree (a ++ b) = quoteFree a && quoteFree b.
Proof.
  induction a as [|c a IH]; cbn [append quoteFree]; [reflexivity|].
  now rewrite IH, andb_assoc.
Qed.

Lemma append_nil_r (s : string) : s ++ "" = s.
Proof. induction s as [|c s IH]; cbn [append]; congruence. Qed.

Lemma append_assoc (a b c : string) : (a ++ b) ++ c = a ++ b ++ c.
Proof. induction a as [|x a IH]; cbn [append]; congruence. Qed.

Lemma length_append (a b : string) :
  String.length (a ++ b) = (String.length a + String.length b)%nat.
Proof.
  induction a as [|x a IH]; cbn [append String.length Nat.add]; congruence.
Qed.

(** Searching for the quote. *)

Lemma indexOf_from_quoteFree (s : string) :
  forall i, quoteFree s = true -> JsString.indexOf_from JsString.dquote s i = -1.
Proof.
  induction s as [|c s IH]; intros i H; cbn [JsString.indexOf_from].
  - reflexivity.
  - cbn [quoteFree] in H. apply andb_prop in H. destruct H as [Hc Hs].
    rewrite prefix_dquote. apply negb_true_iff in Hc. rewrite Hc. now apply IH.
Qed.

Lemma indexOf_from_first_quote (p rest : string) :
  forall i, quoteFree p = true ->
    JsString.indexOf_from JsString.dquote (p ++ JsString.dquote ++ rest) i
    = i + Z.of_nat (String.length p).
Proof.
  induction p as [|c p IH]; intros i H.
  - cbn [append String.length]. unfold JsString.dquote at 2. cbn [append].
    cbn [JsString.indexOf_from]. rewrite prefix_dquote, Ascii.eqb_refl. lia.
  - cbn [append String.length JsString.indexOf_from].
    cbn [quoteFree] in H. apply andb_prop in H. destruct H as [Hc Hs].
    rewrite prefix_dquote. apply negb_true_iff in Hc. rewrite Hc.
    rewrite IH by assumption. lia.
Qed.

Lemma lastIndexOf_from_quoteFree (s : string) :
  forall i best, quoteFree s = true ->
    JsString.lastIndexOf_from JsString.dquote s i best = best.
Proof.
  induction s as [|c s IH]; intros i best H; cbn [JsString.lastIndexOf_from].
  - reflexivity.
  - cbn [quoteFree] in H. apply andb_prop in H. destruct H as [Hc Hs].
    rewrite prefix_dquote. apply negb_true_iff in Hc. rewrite Hc. now apply IH.
Qed.

Lemma lastIndexOf_from_last_quote (a tail : string) :
  forall i best, quoteFree tail = true ->
    JsString.lastIndexOf_from JsString.dquote (a ++ JsString.dquote ++ tail) i best
    = i + Z.of_nat (String.length a).
Proof.
  induction a as [|c a IH]; intros i best H.
  - cbn [append String.length]. unfold JsString.dquote at 2. cbn [append].
    cbn [JsString.lastIndexOf_from]. rewrite prefix_dquote, Ascii.eqb_refl.
    rewrite lastIndexOf_from_quoteFree by assumption. lia.
  - cbn [append String.length JsString.lastIndexOf_from].
    rewrite IH by assumption. lia.
Qed.

(** Taking a substring. *)

Lemma substring_skip (p s : string) (m : nat) :
  substring (String.length p) m (p ++ s) = substring 0 m s.
Proof.
  induction p as [|c p IH]; cbn [append String.length]; [reflexivity|].
  cbn [substring]. exact IH.
Qed.

Lemma substring_take (b s : string) (k : nat) :
  substring 0 (String.length b + k) (b ++ s) = b ++ substring 0 k s.
Proof.
  induction b as [|c b IH]; cbn [append String.length]; [reflexivity|].
  cbn [Nat.add substring]. now rewrite IH.
Qed.

Lemma substring_all (s : string) (m : nat) :
  (String.length s <= m)%nat -> substring 0 m s = s.
Proof.
  revert m. induction s as [|c s IH]; intros m H.
  - now destruct m.
  - destruct m as [|m]; cbn [String.length] in H; [lia|].
    cbn [substring]. rewrite IH by lia. reflexivity.
Qed.

Lemma substring_min (s : string) (m : nat) :
  substring 0 (Nat.min m (String.length s)) s = substring 0 m s.
Proof.
  revert m. induction s as [|c s IH]; intros m.
  - now destruct m.
  - destruct m as [|m]; [reflexivity|].
    cbn [String.length Nat.min substring]. now rewrite IH.
Qed.

(** The slice [parseLine] takes from a line whose first quote follows
    a prefix [p] and whose last quote is followed by [tail]: the text
    between the two quotes, and then as many characters from the last
    quote on as [p] has. *)
Lemma substr_between_quotes (p body tail : string) :
  quoteFree p = true -> quoteFree tail = true ->
  let line := p ++ JsString.dquote ++ body ++ JsString.dquote ++ tail in
  JsString.substr (JsString.indexOf JsString.dquote line + 1)
                  (JsString.lastIndexOf JsString.dquote line - 1) line
  = body ++ substring 0 (String.length p) (JsString.dquote ++ tail).
Proof.
  intros Hp Ht line.
  assert (Hi : JsString.indexOf JsString.dquote line
               = Z.of_nat (String.length p)).
  { unfold JsString.indexOf, line. rewrite indexOf_from_first_quote by assumption.
    lia. }
  assert (Hl : JsString.lastIndexOf JsString.dquote line
               = Z.of_nat (String.length p + 1 + String.length body)).
  { unfold JsString.lastIndexOf, line.
    rewrite <- (append_assoc p), <- (append_assoc (p ++ JsString.dquote)).
    rewrite lastIndexOf_from_last_quote by assumption.
    rewrite !length_append. cbn [JsString.dquote String.length]. lia. }
  assert (Hsize : String.length line
                  = (String.length p + 1 + (String.length body
                                            + (1 + String.length tail)))%nat).
  { unfold line. rewrite !length_append. cbn [JsString.dquote String.length]. lia. }
  rewrite Hi, Hl. unfold JsString.substr. rewrite Hsize.
  set (n := String.length p). set (b := String.length body).
  set (t := String.length tail).
  replace (Z.of_nat n + 1 <? 0) with false by (symmetry; apply Z.ltb_ge; lia).
  replace (Z.to_nat (Z.min (Z.of_nat n + 1) (Z.of_nat (n + 1 + (b + (1 + t))))))
    with (n + 1)%nat by lia.
  replace (Z.to_nat
             (Z.min (Z.min (Z.of_nat n + 1) (Z.of_nat (n + 1 + (b + (1 + t))))
                     + Z.min (Z.max (Z.of_nat (n + 1 + b) - 1) 0)
                             (Z.of_nat (n + 1 + (b + (1 + t)))))
                    (Z.of_nat (n + 1 + (b + (1 + t))))
              - Z.min (Z.of_nat n + 1) (Z.of_nat (n + 1 + (b + (1 + t))))))
    with (b + Nat.min n (1 + t))%nat by lia.
  unfold line.
  rewrite <- (append_assoc p).
  replace (n + 1)%nat with (String.length (p ++ JsString.dquote))
    by (rewrite length_append; reflexivity).
  rewrite substring_skip. subst b. rewrite substring_take. f_equal.
  replace (1 + t)%nat with (String.length (JsString.dquote ++ tail))
    by reflexivity.
  apply substring_min.
Qed.

(** Splitting. *)

Lemma split_go_field (f : string) :
  forall cur rest, quoteFree f = true ->
    JsString.split_go separator 0 cur (f ++ rest)
    = JsString.split_go separator 0 (cur ++ f) rest.
Proof.
  induction f as [|c f IH]; intros cur rest H.
  - cbn [append]. now rewrite append_nil_r.
  - cbn [quoteFree] in H. apply andb_prop in H. destruct H as [Hc Hf].
    apply negb_true_iff in Hc.
    cbn [append]. cbn [JsString.split_go].
    rewrite prefix_separator_other by assumption.
    rewrite IH by assumption. now rewrite append_assoc.
Qed.

Lemma prefix_append (a b : string) : prefix a (a ++ b) = true.
Proof.
  induction a as [|c a IH]; cbn [append].
  - now destruct b.
  - cbn [prefix]. destruct (ascii_dec c c) as [_|H]; [exact IH | contradiction].
Qed.

Lemma split_go_separator (cur rest : string) :
  JsString.split_go separator 0 cur (separator ++ rest)
  = cur :: JsString.split_go separator 0 "" rest.
Proof.
  pose proof (prefix_append separator rest) as H.
  change (separator ++ rest)
    with (String (ascii_of_nat 34)
            (String ","%char (String (ascii_of_nat 34) rest))) in *.
  cbn [JsString.split_go]. rewrite H.
  change (String.length separator - 1)%nat with 2%nat.
  reflexivity.
Qed.

Lemma split_go_end (cur : string) :
  JsString.split_go separator 0 cur "" = [cur].
Proof. reflexivity. Qed.

(** Splitting what was joined gives the fields back, when no field has
    a quote in it. *)
Lemma split_go_concat (fields : list string) :
  forall f cur,
    Forall (fun x => quoteFree x = true) (f :: fields) ->
    JsString.split_go separator 0 cur (String.concat separator (f :: fields))
    = (cur ++ f) :: fields.
Proof.
  induction fields as [|g fields IH]; intros f cur H.
  - cbn [String.concat]. inversion H; subst.
    rewrite <- (append_nil_r f) at 1.
    rewrite split_go_field by assumption. reflexivity.
  - inversion H as [|? ? Hf Hrest]; subst.
    change (String.concat separator (f :: g :: fields))
      with (f ++ separator ++ String.concat separator (g :: fields)).
    rewrite split_go_field by assumption.
    rewrite split_go_separator. f_equal.
    rewrite IH by assumption. reflexivity.
Qed.

Lemma split_concat (fields : list string) :
  fields <> [] ->
  Forall (fun x => quoteFree x = true) fields ->
  JsString.split separator (String.concat separator fields) = fields.
Proof.
  intros Hne H. destruct fields as [|f fields]; [contradiction|].
  change (JsString.split separator (String.concat separator (f :: fields)))
    with (JsString.split_go separator 0 ""
            (String.concat separator (f :: fields))).
  now rewrite split_go_concat.
Qed.

Lemma parseLine_fields (fields : list string) (tail : string) :
  fields <> [] ->
  Forall (fun x => quoteFree x = true) fields ->
  quoteFree tail = true ->
  parseLine (csvLine fields tail) separator = fields.
Proof.
  intros Hne Hf Ht. unfold parseLine, csvLine.
  pose proof (substr_between_quotes "" (String.concat separator fields) tail
                eq_refl Ht) as H.
  cbv zeta in H. cbn [append String.length] in H.
  rewrite H. cbn [substring]. rewrite append_nil_r.
  now apply split_concat.
Qed.

Lemma quoteFree_substring (s : string) :
  forall n, quoteFree s = true -> quoteFree (substring 0 n s) = true.
Proof.
  induction s as [|c s IH]; intros n H.
  - now destruct n.
  - destruct n as [|n]; [reflexivity|].
    cbn [substring quoteFree] in *. apply andb_prop in H. destruct H as [-> Hs].
    now rewrite IH.
Qed.

Lemma prefix_separator_lone_quote (t : string) :
  quoteFree t = true ->
  prefix separator (String (ascii_of_nat 34) t) = false.
Proof.
  intro H. unfold separator, JsString.dquote. cbn [append prefix].
  destruct (ascii_dec (ascii_of_nat 34) (ascii_of_nat 34)) as [_|Hn];
    [|contradiction].
  destruct t as [|c t]; [reflexivity|]. cbn [prefix].
  destruct (ascii_dec ","%char c) as [<-|Hc]; [|reflexivity].
  destruct t as [|d t]; [reflexivity|]. cbn [prefix].
  cbn [quoteFree] in H. apply andb_prop in H. destruct H as [_ H].
  apply andb_prop in H. destruct H as [Hd _].
  apply negb_true_iff in Hd.
  destruct (ascii_dec (ascii_of_nat 34) d) as [<-|Hn]; [|reflexivity].
  now rewrite Ascii.eqb_refl in Hd.
Qed.

(** What follows the joined fields in the slice is either nothing or a
    quote and quote-free text: it stays in the last field. *)
Lemma split_go_trailer (n : nat) (tail : string) :
  forall cur, quoteFree tail = true ->
    let x := substring 0 n (JsString.dquote ++ tail) in
    JsString.split_go separator 0 cur x = [cur ++ x].
Proof.
  intros cur H x. subst x. destruct n as [|n].
  - cbn [substring]. now rewrite append_nil_r.
  - unfold JsString.dquote. cbn [append substring JsString.split_go].
    rewrite prefix_separator_lone_quote
      by now apply quoteFree_substring.
    rewrite <- (append_nil_r (substring 0 n tail)) at 1.
    rewrite split_go_field by now apply quoteFree_substring.
    cbn [JsString.split_go]. now rewrite append_assoc.
Qed.

Lemma split_go_concat_trailer (fields : list string) (x : string) :
  (forall cur, JsString.split_go separator 0 cur x = [cur ++ x]) ->
  forall f cur,
    Forall (fun y => quoteFree y = true) (f :: fields) ->
    JsString.split_go separator 0 cur
                      (String.concat separator (f :: fields) ++ x)
    = appendToLast ((cur ++ f) :: fields) x.
Proof.
  intro Hx. induction fields as [|g fields IH]; intros f cur H.
  - cbn [String.concat appendToLast]. inversion H; subst.
    rewrite split_go_field by assumption. apply Hx.
  - inversion H as [|? ? Hf Hrest]; subst.
    change (String.concat separator (f :: g :: fields))
      with (f ++ separator ++ String.concat separator (g :: fields)).
    rewrite !append_assoc.
    rewrite split_go_field by assumption.
    rewrite split_go_separator.
    rewrite IH by assumption. reflexivity.
Qed.

(* ================================================================== *)
(** * Slicing and splitting a line: properties *)
(* ================================================================== *)

(** X1.  A line made of quoted fields separated by commas, followed by
    text without a quote (such as the trailing comma of the data
    files), parses to its fields, provided no field contains a quote. *)
Theorem parseLine_roundtrip (fields : list string) (tail : string) :
  fields <> [] ->
  Forall (fun x => quoteFree x = true) fields ->
  quoteFree tail = true ->
  parseLine (csvLine fields tail) separator = fields.
Proof. exact (parseLine_fields fields tail). Qed.

Lemma parseLine_roundtrip_witness :
  parseLine (csvLine ["Aruba"; "ABW"; "CO2 emissions (kt)"; ""; "1.5"] ",")
            separator
  = ["Aruba"; "ABW"; "CO2 emissions (kt)"; ""; "1.5"].
Proof.
  apply (parseLine_roundtrip ["Aruba"; "ABW"; "CO2 emissions (kt)"; ""; "1.5"] ",").
  - discriminate.
  - repeat constructor.
  - reflexivity.
Defined.

(** X2.  When text [p] without a quote precedes the opening quote, the
    slice runs past the closing quote by the length of [p]: the last
    field ends with the closing quote and the characters after it, as
    many in all as [p] has. *)
Theorem parseLine_leading_text (p : string) (fields : list string) (tail : string) :
  fields <> [] ->
  Forall (fun x => quoteFree x = true) fields ->
  quoteFree p = true ->
  quoteFree tail = true ->
  parseLine (p ++ csvLine fields tail) separator
  = appendToLast fields (substring 0 (String.length p) (JsString.dquote ++ tail)).
Proof.
  intros Hne Hf Hp Ht. unfold parseLine, csvLine.
  pose proof (substr_between_quotes p (String.concat separator fields) tail
                Hp Ht) as H.
  cbv zeta in H. rewrite H.
  destruct fields as [|f fields]; [contradiction|].
  change (JsString.split separator ?s)
    with (JsString.split_go separator 0 "" s).
  rewrite split_go_concat_trailer; [reflexivity | | assumption].
  intro cur. now apply split_go_trailer.
Qed.

Lemma parseLine_leading_text_witness :
  parseLine (" " ++ csvLine ["Aruba"; "ABW"] ",") separator
  = appendToLast ["Aruba"; "ABW"]
                 (substring 0 (String.length " ") (JsString.dquote ++ ",")).
Proof.
  apply (parseLine_leading_text " " ["Aruba"; "ABW"] ",").
  - discriminate.
  - repeat constructor.
  - reflexivity.
  - reflexivity.
Defined.

(** X3.  A line without any quote, a blank line for one, parses to a
    single empty field: before the header the reader skips it without
    a trace, after the header it reports it as an invalid line, and in
    neither case the report changes. *)
Theorem line_without_quote (st : Reader) (input : string) :
  quoteFree input = true ->
  parseLine input separator = [""]
  /\ onLine st input
     = if gotHeader st
       then {| gotHeader := true; this := this st;
               console := console st ++ [diagnostic input] |}
       else st.
Proof.
  intro H.
  assert (Hp : parseLine input separator = [""]).
  { unfold parseLine, JsString.indexOf, JsString.lastIndexOf.
    rewrite indexOf_from_quoteFree, lastIndexOf_from_quoteFree by assumption.
    unfold JsString.substr. cbn [Z.add Z.sub Z.opp Z.ltb Z.compare Z.max Z.min
                                 Z.pos_sub Pos.pred_double].
    replace (Z.to_nat _) with 0%nat by lia.
    replace (Z.to_nat _) with 0%nat by lia.
    cbn [substring]. destruct input; reflexivity. }
  split; [exact Hp|].
  destruct (gotHeader st) eqn:Hg.
  - apply onLine_short; [assumption|]. rewrite Hp. cbn [List.length]. lia.
  - apply (onLine_before_header st input "" []); auto.
Qed.

Lemma line_without_quote_witness :
  let st := readLines new_Report [sampleHeader] in
  parseLine "" separator = [""]
  /\ onLine st ""
     = if gotHeader st
       then {| gotHeader := true; this := this st;
               console := console st ++ [diagnostic ""] |}
       else st.
Proof.
  intro st. apply (line_without_quote st ""). reflexivity.
Defined.

(* ================================================================== *)
(** * Reading the data file: the report as a function of the lines *)
(* ================================================================== *)

Lemma onLine_row_indicator (st : Reader) (input : string) :
  gotHeader st = true ->
  enoughFields (years (this st)) input = true ->
  onLine st input =
    {| gotHeader := true;
       this := addIndicator
                 (rowIndicator (years (this st)) (parseLine input separator))
                 (this st);
       console := console st |}.
Proof.
  intros Hg He. apply onLine_row; [assumption|].
  unfold enoughFields in He. apply negb_true_iff, Nat.ltb_ge in He. exact He.
Qed.

Lemma onLine_short_diagnostic (st : Reader) (input : string) :
  gotHeader st = true ->
  enoughFields (years (this st)) input = false ->
  onLine st input =
    {| gotHeader := true; this := this st;
       console := console st ++ [diagnostic input] |}.
Proof.
  intros Hg He. apply onLine_short; [assumption|].
  unfold enoughFields in He. apply negb_false_iff, Nat.ltb_lt in He. exact He.
Qed.

(** After the header every line either adds its indicator or its
    diagnostic, in the order of the lines. *)
Lemma fold_onLine_rows_exact (lines : list string) :
  forall st, gotHeader st = true ->
    fold_left onLine lines st =
      {| gotHeader := true;
         this :=
           {| years := years (this st);
              indicators :=
                indicators (this st)
                ++ map (fun l => rowIndicator (years (this st))
                                              (parseLine l separator))
                       (filter (enoughFields (years (this st))) lines) |};
         console :=
           console st
           ++ map diagnostic
                  (filter (fun l => negb (enoughFields (years (this st)) l))
                          lines) |}.
Proof.
  induction lines as [|l lines IH]; intros st Hg; cbn [fold_left filter map].
  - rewrite !app_nil_r. destruct st as [g [ys inds] c]. cbn in *. now subst.
  - destruct (enoughFields (years (this st)) l) eqn:He.
    + rewrite (onLine_row_indicator st l Hg He), IH by reflexivity.
      cbn [this years indicators console addIndicator negb map].
      now rewrite <- app_assoc.
    + rewrite (onLine_short_diagnostic st l Hg He), IH by reflexivity.
      cbn [this years indicators console negb map].
      now rewrite <- app_assoc.
Qed.

Lemma fold_onLine_to_afterHeader (lines : list string) :
  forall st header, gotHeader st = false ->
    headerOf lines = Some header ->
    fold_left onLine lines st =
      fold_left onLine (afterHeader lines)
        {| gotHeader := true;
           this := {| years := years (this st) ++ skipn 4 header;
                      indicators := indicators (this st) |};
           console := console st |}.
Proof.
  induction lines as [|l lines IH]; intros st header Hg Hh;
    cbn [headerOf afterHeader fold_left] in *; [discriminate|].
  destruct (parseLine l separator) as [|c0 cols] eqn:Hp.
  - exfalso. exact (parseLine_nonempty l Hp).
  - destruct (String.eqb c0 "Country Name") eqn:Hc.
    + injection Hh as <-. now rewrite (onLine_header st l c0 cols).
    + rewrite (onLine_before_header st l c0 cols) by assumption.
      now apply IH.
Qed.

Lemma readLines_with_header (r : Report) (lines header : list string) :
  headerOf lines = Some header ->
  let ys := (years r ++ skipn 4 header)%list in
  readLines r lines =
    {| gotHeader := true;
       this :=
         {| years := ys;
            indicators :=
              indicators r
              ++ map (fun l => rowIndicator ys (parseLine l separator))
                     (filter (enoughFields ys) (afterHeader lines)) |};
       console :=
         map diagnostic
             (filter (fun l => negb (enoughFields ys l)) (afterHeader lines)) |}.
Proof.
  intros Hh ys. unfold readLines.
  rewrite (fold_onLine_to_afterHeader lines
             {| gotHeader := false; this := r; console := [] |}
             header eq_refl Hh).
  rewrite fold_onLine_rows_exact by reflexivity. reflexivity.
Qed.

(** What [fillValues] adds, with or without repeated labels. *)
Lemma fillValues_keys (ys cols : list string) :
  forall index vals,
    NoDup (keys vals) ->
    let o := fillValues ys cols index vals in
    NoDup (keys o)
    /\ (forall k, In k (keys o) <-> In k (keys vals) \/ In k (map parseInt ys))
    /\ (List.length o <= List.length vals + List.length ys)%nat.
Proof.
  induction ys as [|y ys IH]; intros index vals Hv; cbn [fillValues map List.length].
  - split; [assumption | split; [intro k; simpl; tauto | lia]].
  - destruct (IH (S index) (setProp (parseInt y) (col cols index) vals))
      as (Hnd & Hkeys & Hlen); [now apply NoDup_keys_setProp|].
    split; [assumption | split].
    + intro k. rewrite Hkeys, In_keys_setProp. simpl. intuition congruence.
    + assert (List.length (setProp (parseInt y) (col cols index) vals)
              <= S (List.length vals))%nat; [|lia].
      unfold setProp. destruct (hasProp (parseInt y) vals).
      * clear. induction vals as [|[k v] vals IHv]; cbn [update List.length];
          [lia|]. destruct (key_eqb (parseInt y) k); cbn [List.length]; lia.
      * rewrite length_create. lia.
Qed.

(** The value stored for a label is the cell of its column, unless a
    later column has a label that parses to the same year. *)
Lemma fillValues_lookup (ys cols : list string) :
  forall index vals j,
    (j < List.length ys)%nat ->
    (forall j', (j < j' < List.length ys)%nat ->
                parseInt (nth j' ys "") <> parseInt (nth j ys "")) ->
    getProp (parseInt (nth j ys "")) (fillValues ys cols index vals)
    = Some (col cols (index + j)).
Proof.
  induction ys as [|y ys IH]; intros index vals j Hj Hlater;
    cbn [List.length] in Hj; [lia|].
  cbn [fillValues]. destruct j as [|j].
  - cbn [nth] in *. rewrite Nat.add_0_r.
    assert (Hkeep : forall ys' idx o,
               (forall j', (j' < List.length ys')%nat ->
                           parseInt (nth j' ys' "") <> parseInt y) ->
               getProp (parseInt y) (fillValues ys' cols idx o)
               = getProp (parseInt y) o).
    { clear. induction ys' as [|z ys' IHy]; intros idx o H; cbn [fillValues];
        [reflexivity|].
      rewrite IHy.
      - apply getProp_setProp_other. intro E. apply (H 0%nat); cbn; [lia|].
        now symmetry.
      - intros j' Hj'. apply (H (S j')). cbn. lia. }
    rewrite Hkeep.
    + apply getProp_setProp_same.
    + intros j' Hj'. apply (Hlater (S j')). cbn. lia.
  - cbn [nth]. rewrite IH.
    + f_equal. f_equal. lia.
    + lia.
    + intros j' Hj'. apply (Hlater (S j')). cbn. lia.
Qed.

(* ================================================================== *)
(** * Reading the data file: further properties *)
(* ================================================================== *)

(** X4.  Reading a file that has a header line into a report [r] adds
    the header fields from index 4 on to [years] and, for the lines
    after the header in their order, appends the indicator of every
    line with enough fields and prints the diagnostic of every other
    line; lines before the header leave no trace. *)
Theorem report_of_lines (r : Report) (lines header : list string) :
  headerOf lines = Some header ->
  let ys := (years r ++ skipn 4 header)%list in
  let rows := afterHeader lines in
  years (readDataFile r lines) = ys
  /\ indicators (readDataFile r lines)
     = (indicators r
        ++ map (fun l => rowIndicator ys (parseLine l separator))
               (filter (enoughFields ys) rows))%list
  /\ console (readLines r lines)
     = map diagnostic (filter (fun l => negb (enoughFields ys l)) rows).
Proof.
  intros Hh ys rows. unfold readDataFile.
  rewrite (readLines_with_header r lines header Hh). auto.
Qed.

Lemma report_of_lines_witness :
  let ys := (years new_Report ++ skipn 4 (parseLine sampleHeader separator))%list in
  let rows := afterHeader ("preamble" :: gapFile) in
  years (readDataFile new_Report ("preamble" :: gapFile)) = ys
  /\ indicators (readDataFile new_Report ("preamble" :: gapFile))
     = (indicators new_Report
        ++ map (fun l => rowIndicator ys (parseLine l separator))
               (filter (enoughFields ys) rows))%list
  /\ console (readLines new_Report ("preamble" :: gapFile))
     = map diagnostic (filter (fun l => negb (enoughFields ys l)) rows).
Proof.
  apply (report_of_lines new_Report ("preamble" :: gapFile)
                         (parseLine sampleHeader separator)).
  vm_compute. reflexivity.
Defined.

(** X5.  A file in which no line has [Country Name] as its first field
    changes nothing: the report is returned as it was, the reader is
    still waiting for the header, and nothing is printed. *)
Theorem file_without_header (r : Report) (lines : list string) :
  headerOf lines = None ->
  readLines r lines = {| gotHeader := false; this := r; console := [] |}
  /\ readDataFile r lines = r.
Proof.
  intro Hh. unfold readDataFile, readLines.
  pose proof (fold_onLine_to_header lines
                {| gotHeader := false; this := r; console := [] |} eq_refl) as H.
  rewrite Hh in H. rewrite H. auto.
Qed.

Lemma file_without_header_witness :
  readLines tieReport ["Data Source"; ""; csvLine ["Aruba"; "ABW"; "X"; "x"; "1"] ","]
  = {| gotHeader := false; this := tieReport; console := [] |}
  /\ readDataFile tieReport
       ["Data Source"; ""; csvLine ["Aruba"; "ABW"; "X"; "x"; "1"] ","]
     = tieReport.
Proof.
  apply (file_without_header tieReport).
  vm_compute. reflexivity.
Defined.

(** X6.  Whatever the file, every indicator of a report read into a new
    report has one entry per distinct parsed year label: its keys are
    pairwise distinct, they are exactly the parsed labels of [years],
    and there are at most [years.length] of them. *)
Theorem values_keys_of_any_file (lines : list string) (i : Indicator) :
  In i (indicators (readDataFile new_Report lines)) ->
  let r := readDataFile new_Report lines in
  NoDup (keys (values i))
  /\ (forall k, In k (keys (values i)) <-> In k (map parseInt (years r)))
  /\ (List.length (values i) <= List.length (years r))%nat.
Proof.
  unfold readDataFile. destruct (headerOf lines) as [header|] eqn:Hh.
  - rewrite (readLines_with_header new_Report lines header Hh).
    cbn [this years indicators new_Report app].
    intro Hin. apply in_map_iff in Hin. destruct Hin as (l & <- & _).
    cbn [rowIndicator values].
    destruct (fillValues_keys (skipn 4 header) (parseLine l separator) 4 [])
      as (Hnd & Hk & Hlen); [constructor|].
    split; [assumption | split; [|exact Hlen]].
    intro k. rewrite Hk. simpl. tauto.
  - pose proof (fold_onLine_to_header lines
                  {| gotHeader := false; this := new_Report; console := [] |}
                  eq_refl) as H.
    rewrite Hh in H. unfold readLines. rewrite H. intros [].
Qed.

Lemma values_keys_of_any_file_witness :
  let i := rowIndicator ["1980"; "1980"] ["Aruba"; "ABW"; "X"; "x"; "5"; "6"] in
  let r := readDataFile new_Report repeatedYearFile in
  NoDup (keys (values i))
  /\ (forall k, In k (keys (values i)) <-> In k (map parseInt (years r)))
  /\ (List.length (values i) <= List.length (years r))%nat.
Proof.
  apply (values_keys_of_any_file repeatedYearFile).
  vm_compute. left. reflexivity.
Defined.

(** X7.  In the indicator built from a row, the value stored for the
    label of column [4 + j] is the cell of that column, provided no
    later column has a label that parses to the same year (the later
    cell would replace it). *)
Theorem value_of_year_column (ys cols : list string) (j : nat) :
  (j < List.length ys)%nat ->
  (forall j', (j < j' < List.length ys)%nat ->
              parseInt (nth j' ys "") <> parseInt (nth j ys "")) ->
  getProp (parseInt (nth j ys "")) (values (rowIndicator ys cols))
  = Some (nth (4 + j) cols "").
Proof.
  intros Hj Hlater. cbn [rowIndicator values].
  now rewrite fillValues_lookup.
Qed.

Lemma value_of_year_column_witness :
  getProp (parseInt (nth 1 ["1980"; "1981"] ""))
          (values (rowIndicator ["1980"; "1981"]
                                ["Aruba"; "ABW"; "X"; "x"; "5"; "6"]))
  = Some (nth (4 + 1) ["Aruba"; "ABW"; "X"; "x"; "5"; "6"] "").
Proof.
  apply (value_of_year_column ["1980"; "1981"]
                              ["Aruba"; "ABW"; "X"; "x"; "5"; "6"] 1).
  - simpl. lia.
  - intros j' Hj'. simpl in Hj'. lia.
Defined.

Lemma enoughFields_csvLine (ys row : list string) :
  Forall (fun x => quoteFree x = true) row ->
  enoughFields ys (csvLine row ",") = longEnough ys row
  /\ (longEnough ys row = true -> parseLine (csvLine row ",") separator = row).
Proof.
  intro H. unfold enoughFields, longEnough. destruct row as [|f row].
  - replace (parseLine (csvLine [] ",") separator) with [""]
      by (vm_compute; reflexivity).
    cbn [List.length]. split.
    + replace (1 <? List.length ys + 4)%nat with true
        by (symmetry; apply Nat.ltb_lt; lia).
      replace (0 <? List.length ys + 4)%nat with true
        by (symmetry; apply Nat.ltb_lt; lia).
      reflexivity.
    + replace (0 <? List.length ys + 4)%nat with true
        by (symmetry; apply Nat.ltb_lt; lia).
      discriminate.
  - rewrite parseLine_fields; [auto | discriminate | assumption | reflexivity].
Qed.

Lemma rows_of_csvLines (ys : list string) (rows : list (list string)) :
  Forall (Forall (fun x => quoteFree x = true)) rows ->
  map (fun l => rowIndicator ys (parseLine l separator))
      (filter (enoughFields ys) (map (fun row => csvLine row ",") rows))
  = map (rowIndicator ys) (filter (longEnough ys) rows).
Proof.
  induction rows as [|row rows IH]; intro H; cbn [map filter]; [reflexivity|].
  inversion H as [|? ? Hrow Hrows]; subst.
  destruct (enoughFields_csvLine ys row Hrow) as [He Hp]. rewrite He.
  destruct (longEnough ys row); cbn [map]; rewrite IH by assumption;
    [|reflexivity].
  now rewrite Hp.
Qed.

(** X8.  Reading into a new report the text of a table, a header line
    [Country Name], three more column names and the year labels,
    followed by one line per row, every field in quotes and none with
    a quote inside, gives the year labels as [years] and the indicators
    of the rows that have at least [4 + years.length] fields, in order. *)
Theorem report_of_table (a b c : string) (labels : list string)
        (rows : list (list string)) :
  Forall (fun x => quoteFree x = true) (a :: b :: c :: labels) ->
  Forall (Forall (fun x => quoteFree x = true)) rows ->
  readDataFile new_Report
    (csvLine ("Country Name" :: a :: b :: c :: labels) ""
     :: map (fun row => csvLine row ",") rows)
  = {| years := labels;
       indicators := map (rowIndicator labels) (filter (longEnough labels) rows) |}.
Proof.
  intros Hh Hrows.
  assert (Hp : parseLine (csvLine ("Country Name" :: a :: b :: c :: labels) "")
                         separator
               = "Country Name" :: a :: b :: c :: labels).
  { apply parseLine_fields; [discriminate | | reflexivity].
    constructor; [reflexivity | assumption]. }
  unfold readDataFile.
  rewrite (readLines_with_header new_Report _
             ("Country Name" :: a :: b :: c :: labels)).
  - cbn [this new_Report years indicators app skipn afterHeader].
    rewrite Hp. rewrite String.eqb_refl.
    now rewrite rows_of_csvLines.
  - cbn [headerOf]. rewrite Hp. now rewrite String.eqb_refl.
Qed.

Lemma report_of_table_witness :
  readDataFile new_Report
    (csvLine ("Country Name" :: "Country Code" :: "Indicator Name"
              :: "Indicator Code" :: ["1980"; "1981"]) ""
     :: map (fun row => csvLine row ",")
            [ ["Aruba"; "ABW"; "X"; "x"; "5"; "6"]; ["Chad"; "TCD"; "X"] ])
  = {| years := ["1980"; "1981"];
       indicators :=
         map (rowIndicator ["1980"; "1981"])
             (filter (longEnough ["1980"; "1981"])
                     [ ["Aruba"; "ABW"; "X"; "x"; "5"; "6"];
                       ["Chad"; "TCD"; "X"] ]) |}.
Proof.
  apply (report_of_table "Country Code" "Indicator Name" "Indicator Code"
                         ["1980"; "1981"]).
  - repeat constructor.
  - repeat constructor.
Defined.

(* ================================================================== *)
(** * The country query: the reduction as a whole *)
(* ================================================================== *)

Lemma totalOf_None (startYear endYear : Z) (i : Indicator) :
  totalOf startYear endYear i = None <-> disqualified startYear endYear i.
Proof. apply totalOver_disqualified. Qed.

Lemma totalOf_Some (startYear endYear : Z) (i : Indicator) (t : number) :
  totalOf startYear endYear i = Some t -> ~ disqualified startYear endYear i.
Proof. intros H Hd. apply totalOf_None in Hd. congruence. Qed.

(** A loop that runs to its end computes the sum of the parsed cells. *)
Lemma totalOver_fold (vals : JsObject.t string) (ys : list Z) :
  forall acc t,
    totalOver vals ys acc = Some t ->
    t = fold_left (fun t y => fadd t (parseFloat (toStringArg (getProp (KInt y) vals))))
                  ys acc.
Proof.
  induction ys as [|i ys IH]; intros acc t; cbn [totalOver fold_left].
  - now intros [= <-].
  - destruct (isEmptyString _); [discriminate|]. apply IH.
Qed.

Lemma totalOf_rangeSum (startYear endYear : Z) (i : Indicator) :
  ~ disqualified startYear endYear i ->
  totalOf startYear endYear i = Some (rangeSum startYear endYear i).
Proof.
  intro H. destruct (totalOf startYear endYear i) as [t|] eqn:E.
  - f_equal. exact (totalOver_fold _ _ _ _ E).
  - apply totalOf_None in E. contradiction.
Qed.

(** The reducer in terms of the two sums. *)
Lemma higher_totals (startYear endYear : Z) (p c : Indicator) :
  higher startYear endYear (Some p) c
  = match totalOf startYear endYear c, totalOf startYear endYear p with
    | None, _ => Some p
    | Some _, None => Some c
    | Some tc, Some tp => if fge tc tp then Some c else Some p
    end.
Proof. reflexivity. Qed.

(** The reduction never loses its winner, and the winner is one of the
    candidates. *)
Lemma fold_higher_from (startYear endYear : Z) (l : list Indicator) :
  forall acc,
    (acc <> None \/ l <> []) ->
    exists w, fold_left (higher startYear endYear) l acc = Some w
              /\ (acc = Some w \/ In w l).
Proof.
  induction l as [|c l IH]; intros acc H; cbn [fold_left].
  - destruct H as [H|H]; [|contradiction].
    destruct acc as [p|]; [|contradiction]. exists p. auto.
  - destruct (IH (higher startYear endYear acc c)) as (w & Hw & Hfrom).
    { left. destruct acc as [p|]; [|discriminate].
      destruct (higher_choice startYear endYear p c) as [E|[E _]];
        rewrite E; discriminate. }
    exists w. split; [assumption|].
    destruct Hfrom as [E|Hin]; [|right; now right].
    destruct acc as [p|].
    + destruct (higher_choice startYear endYear p c) as [E'|[E' _]];
        rewrite E' in E; injection E as <-; [now left | right; now left].
    + injection E as <-. right. now left.
Qed.

(** From a winner with a sum: the reduction ends on a candidate whose
    sum is [>=] the winner's and every later candidate's. *)
Lemma fold_higher_max_from (startYear endYear : Z) (l : list Indicator) :
  forall p tp,
    totalOf startYear endYear p = Some tp -> tp <> NaN ->
    (forall i t, In i l -> totalOf startYear endYear i = Some t -> t <> NaN) ->
    exists w tw,
      fold_left (higher startYear endYear) l (Some p) = Some w
      /\ (w = p \/ In w l)
      /\ totalOf startYear endYear w = Some tw
      /\ fge tw tp = true
      /\ forall i t, In i l -> totalOf startYear endYear i = Some t ->
                     fge tw t = true.
Proof.
  induction l as [|c l IH]; intros p tp Hp Hnan Hall; cbn [fold_left].
  - exists p, tp. repeat split; auto. now apply fge_refl.
  - rewrite higher_totals, Hp.
    assert (Hl : forall i t, In i l -> totalOf startYear endYear i = Some t ->
                             t <> NaN)
      by (intros i t Hi; apply Hall; now right).
    destruct (totalOf startYear endYear c) as [tc|] eqn:Hc.
    + assert (Htc : tc <> NaN) by (apply (Hall c); [now left | assumption]).
      destruct (fge tc tp) eqn:E.
      * destruct (IH c tc Hc Htc Hl) as (w & tw & Hw & Hfrom & Htw & Hge & Hmax).
        exists w, tw. repeat split; auto.
        -- destruct Hfrom as [->|Hin]; right; [now left | now right].
        -- exact (fge_trans _ _ _ Hge E).
        -- intros i t [<-|Hi] Ht; [|now apply (Hmax i)].
           rewrite Hc in Ht. now injection Ht as <-.
      * destruct (IH p tp Hp Hnan Hl) as (w & tw & Hw & Hfrom & Htw & Hge & Hmax).
        exists w, tw. repeat split; auto.
        -- destruct Hfrom as [->|Hin]; [now left | right; now right].
        -- intros i t [<-|Hi] Ht; [|now apply (Hmax i)].
           rewrite Hc in Ht. injection Ht as <-.
           apply (fge_trans _ _ _ Hge). now apply fge_total.
    + destruct (IH p tp Hp Hnan Hl) as (w & tw & Hw & Hfrom & Htw & Hge & Hmax).
      exists w, tw. repeat split; auto.
      * destruct Hfrom as [->|Hin]; [now left | right; now right].
      * intros i t [<-|Hi] Ht; [congruence | now apply (Hmax i)].
Qed.

(** From no winner or a winner without a sum. *)
Lemma fold_higher_max (startYear endYear : Z) (l : list Indicator) :
  forall acc,
    (forall p, acc = Some p -> totalOf startYear endYear p = None) ->
    (exists i, In i l /\ ~ disqualified startYear endYear i) ->
    (forall i t, In i l -> totalOf startYear endYear i = Some t -> t <> NaN) ->
    exists w tw,
      fold_left (higher startYear endYear) l acc = Some w
      /\ In w l
      /\ totalOf startYear endYear w = Some tw
      /\ forall i t, In i l -> totalOf startYear endYear i = Some t ->
                     fge tw t = true.
Proof.
  induction l as [|c l IH]; intros acc Hacc Hex Hall; cbn [fold_left].
  - destruct Hex as (i & [] & _).
  - assert (Hl : forall i t, In i l -> totalOf startYear endYear i = Some t ->
                             t <> NaN)
      by (intros i t Hi; apply Hall; now right).
    destruct (totalOf startYear endYear c) as [tc|] eqn:Hc.
    + assert (Hstep : higher startYear endYear acc c = Some c).
      { destruct acc as [p|]; [|reflexivity].
        rewrite higher_totals, Hc, (Hacc p eq_refl). reflexivity. }
      rewrite Hstep.
      assert (Htc : tc <> NaN) by (apply (Hall c); [now left | assumption]).
      destruct (fold_higher_max_from startYear endYear l c tc Hc Htc Hl)
        as (w & tw & Hw & Hfrom & Htw & Hge & Hmax).
      exists w, tw. repeat split; auto.
      * destruct Hfrom as [->|Hin]; [now left | now right].
      * intros i t [<-|Hi] Ht; [|now apply (Hmax i)].
        rewrite Hc in Ht. now injection Ht as <-.
    + assert (Hstep : exists q, higher startYear endYear acc c = Some q
                                /\ totalOf startYear endYear q = None).
      { destruct acc as [p|].
        - exists p. rewrite higher_totals, Hc. auto.
        - exists c. auto. }
      destruct Hstep as (q & -> & Hq).
      destruct (IH (Some q)) as (w & tw & Hw & Hin & Htw & Hmax).
      * intros p' E. now injection E as <-.
      * destruct Hex as (i & [<-|Hi] & Hnd); [|now exists i].
        exfalso. apply Hnd. now apply totalOf_None.
      * exact Hl.
      * exists w, tw. repeat split; auto; [now right|].
        intros i t [<-|Hi] Ht; [congruence | now apply (Hmax i)].
Qed.

(** Sums over a range with a year that has no entry. *)

Lemma fadd_NaN_r (x : number) : fadd x NaN = NaN.
Proof. now destruct x. Qed.

Lemma totalOver_NaN (vals : JsObject.t string) (ys : list Z) (t : number) :
  totalOver vals ys NaN = Some t -> t = NaN.
Proof.
  induction ys as [|i ys IH]; cbn [totalOver].
  - now intros [= <-].
  - destruct (isEmptyString _); [discriminate|]. exact IH.
Qed.

Lemma totalOver_missing (vals : JsObject.t string) (ys : list Z) (y : Z) :
  forall acc t,
    In y ys -> getProp (KInt y) vals = None ->
    totalOver vals ys acc = Some t -> t = NaN.
Proof.
  induction ys as [|i ys IH]; intros acc t Hin Hy; cbn [totalOver]; [destruct Hin|].
  destruct (isEmptyString _) eqn:E; [discriminate|].
  destruct (Z.eq_dec i y) as [->|Hne].
  - rewrite Hy. cbn [toStringArg].
    replace (parseFloat "undefined") with NaN by (vm_compute; reflexivity).
    rewrite fadd_NaN_r. apply totalOver_NaN.
  - destruct Hin as [->|Hin]; [contradiction|]. now apply IH.
Qed.

Lemma fold_higher_keeps_NaN (startYear endYear : Z) (l : list Indicator) :
  forall p,
    totalOf startYear endYear p = Some NaN ->
    (forall i t, In i l -> totalOf startYear endYear i = Some t -> t = NaN) ->
    fold_left (higher startYear endYear) l (Some p) = Some p.
Proof.
  induction l as [|c l IH]; intros p Hp Hall; cbn [fold_left]; [reflexivity|].
  rewrite higher_totals, Hp.
  destruct (totalOf startYear endYear c) as [tc|] eqn:Hc.
  - rewrite (Hall c tc) by (auto; now left). cbn.
    apply IH; [assumption|]. intros i t Hi. apply Hall. now right.
  - apply IH; [assumption|]. intros i t Hi. apply Hall. now right.
Qed.

Lemma fold_higher_first_qualified (startYear endYear : Z) (l : list Indicator) :
  forall p,
    totalOf startYear endYear p = None ->
    (forall i t, In i l -> totalOf startYear endYear i = Some t -> t = NaN) ->
    fold_left (higher startYear endYear) l (Some p)
    = match find (qualifiedb startYear endYear) l with
      | Some w => Some w
      | None => Some p
      end.
Proof.
  induction l as [|c l IH]; intros p Hp Hall; cbn [fold_left find];
    [reflexivity|].
  assert (Hl : forall i t, In i l -> totalOf startYear endYear i = Some t ->
                           t = NaN)
    by (intros i t Hi; apply Hall; now right).
  rewrite higher_totals, Hp. unfold qualifiedb at 1.
  destruct (totalOf startYear endYear c) as [tc|] eqn:Hc.
  - apply fold_higher_keeps_NaN; [|assumption].
    rewrite Hc. f_equal. apply (Hall c); [now left | assumption].
  - now apply IH.
Qed.

Lemma yearRange_empty (startYear endYear : Z) :
  endYear < startYear -> yearRange startYear endYear = [].
Proof.
  intro H. unfold yearRange.
  replace (Z.to_nat (endYear - startYear + 1)) with 0%nat by lia. reflexivity.
Qed.

Lemma fold_higher_empty_range (startYear endYear : Z) (l : list Indicator) :
  endYear < startYear ->
  forall acc lst,
    fold_left (higher startYear endYear) (l ++ [lst]) acc = Some lst.
Proof.
  intros H acc lst. rewrite fold_left_app. cbn [fold_left].
  destruct (fold_left (higher startYear endYear) l acc) as [p|]; [|reflexivity].
  rewrite higher_totals. unfold totalOf. rewrite (yearRange_empty _ _ H).
  reflexivity.
Qed.

(* ================================================================== *)
(** * The country query: further properties *)
(* ================================================================== *)

(** X9.  When an indicator is named [indicatorName] the country query
    returns a result, and the result is the country of an indicator of
    the report with that name. *)
Theorem country_query_returns_a_candidate
        (r : Report) (indicatorName : string) (startYear endYear : Z)
        (i : Indicator) :
  In i (indicators r) ->
  name i = indicatorName ->
  exists w,
    In w (indicators r) /\ name w = indicatorName
    /\ countryOfHighestAverageBewteenYears r indicatorName startYear endYear
       = Ok (country w).
Proof.
  intros Hi Hn.
  destruct (fold_higher_from startYear endYear
              (filter (matching indicatorName) (indicators r)) None)
    as (w & Hw & Hfrom).
  - right. intro E.
    assert (Hin : In i (filter (matching indicatorName) (indicators r)))
      by (apply filter_In; rewrite matching_name; auto).
    rewrite E in Hin. exact Hin.
  - destruct Hfrom as [E|Hin]; [discriminate|].
    apply filter_In in Hin. rewrite matching_name in Hin.
    exists w. unfold countryOfHighestAverageBewteenYears, winner.
    rewrite Hw. tauto.
Qed.

Lemma country_query_returns_a_candidate_witness :
  exists w,
    In w (indicators tieReport) /\ name w = "X"
    /\ countryOfHighestAverageBewteenYears tieReport "X" 1980 1990
       = Ok (country w).
Proof.
  apply (country_query_returns_a_candidate tieReport "X" 1980 1990 tieFirst).
  - left. reflexivity.
  - reflexivity.
Defined.

(** X10.  When some matching indicator has no empty cell in the range
    and the sums of the matching indicators without an empty cell are
    numbers (not [NaN]), the indicator selected has no empty cell and
    its sum, the parsed cells of the years of the range added from the
    left to 0, is [>=] the sum of every matching indicator without an
    empty cell. *)
Theorem country_query_maximal
        (r : Report) (indicatorName : string) (startYear endYear : Z) :
  let candidates := filter (matching indicatorName) (indicators r) in
  (exists i, In i candidates /\ ~ disqualified startYear endYear i) ->
  (forall i, In i candidates -> ~ disqualified startYear endYear i ->
             rangeSum startYear endYear i <> NaN) ->
  exists w,
    winner r indicatorName startYear endYear = Some w
    /\ countryOfHighestAverageBewteenYears r indicatorName startYear endYear
       = Ok (country w)
    /\ In w candidates
    /\ ~ disqualified startYear endYear w
    /\ forall i, In i candidates -> ~ disqualified startYear endYear i ->
                 fge (rangeSum startYear endYear w)
                     (rangeSum startYear endYear i) = true.
Proof.
  intros candidates Hex Hnan.
  destruct (fold_higher_max startYear endYear candidates None)
    as (w & tw & Hw & Hin & Htw & Hmax); try assumption.
  - intros p E. discriminate E.
  - intros i t Hi Ht.
    pose proof (totalOf_Some _ _ _ _ Ht) as Hq.
    rewrite (totalOf_rangeSum _ _ _ Hq) in Ht. injection Ht as <-.
    now apply Hnan.
  - pose proof (totalOf_Some _ _ _ _ Htw) as Hq.
    rewrite (totalOf_rangeSum _ _ _ Hq) in Htw. injection Htw as <-.
    exists w. unfold countryOfHighestAverageBewteenYears, winner.
    fold candidates. rewrite Hw. repeat split; auto.
    intros i Hi Hiq. apply (Hmax i); [assumption|].
    now apply totalOf_rangeSum.
Qed.

Lemma country_query_maximal_witness :
  let candidates := filter (matching "X") (indicators sumsReport) in
  exists w,
    winner sumsReport "X" 1980 1981 = Some w
    /\ countryOfHighestAverageBewteenYears sumsReport "X" 1980 1981
       = Ok (country w)
    /\ In w candidates
    /\ ~ disqualified 1980 1981 w
    /\ forall i, In i candidates -> ~ disqualified 1980 1981 i ->
                 fge (rangeSum 1980 1981 w) (rangeSum 1980 1981 i) = true.
Proof.
  intro candidates.
  apply (country_query_maximal sumsReport "X" 1980 1981).
  - exists {| country := "Chad"; countryCode := "TCD"; name := "X"; code := "bb";
              values := [(KInt 1980, "5"); (KInt 1981, "3")] |}.
    split.
    + vm_compute. right. right. left. reflexivity.
    + intro H. apply totalOf_None in H. vm_compute in H. discriminate H.
  - intros i Hi Hq. vm_compute in Hi.
    destruct Hi as [<-|[<-|[<-|[<-|[]]]]];
      try (vm_compute; discriminate).
    exfalso. apply Hq. exists 1980. split; [lia | reflexivity].
Defined.

(** On the sample report the candidates without an empty cell have the
    sums 3, 8 and 5, and the query returns the second of them. *)
Lemma country_query_maximal_sample :
  map (rangeSum 1980 1981)
      (filter (qualifiedb 1980 1981)
              (filter (matching "X") (indicators sumsReport)))
  = [parseFloat "3"; parseFloat "8"; parseFloat "5"]
  /\ countryOfHighestAverageBewteenYears sumsReport "X" 1980 1981 = Ok "Chad".
Proof. split; vm_compute; reflexivity. Qed.

(** X11.  When some year of the range has no entry at all in the values
    of the matching indicators, every sum that is computed is [NaN] and
    no comparison succeeds: the query selects the first matching
    indicator without an empty cell in the range, or the first matching
    indicator when there is none. *)
Theorem country_query_missing_year
        (r : Report) (indicatorName : string) (startYear endYear y : Z) :
  let candidates := filter (matching indicatorName) (indicators r) in
  startYear <= y <= endYear ->
  (forall i, In i candidates -> getProp (KInt y) (values i) = None) ->
  winner r indicatorName startYear endYear
  = match find (qualifiedb startYear endYear) candidates with
    | Some w => Some w
    | None => hd_error candidates
    end.
Proof.
  intros candidates Hy Hmiss. unfold winner. fold candidates.
  assert (Hall : forall i t, In i candidates ->
                             totalOf startYear endYear i = Some t -> t = NaN).
  { intros i t Hi Ht. unfold totalOf in Ht.
    apply (totalOver_missing (values i) (yearRange startYear endYear) y zero t);
      auto. now apply In_yearRange. }
  clearbody candidates.
  destruct candidates as [|c l]; [reflexivity|].
  cbn [fold_left higher find hd_error]. unfold qualifiedb at 1.
  destruct (totalOf startYear endYear c) as [tc|] eqn:Hc.
  - apply fold_higher_keeps_NaN.
    + rewrite Hc. f_equal. apply (Hall c); [now left | assumption].
    + intros i t Hi. apply Hall. now right.
  - apply fold_higher_first_qualified; [assumption|].
    intros i t Hi. apply Hall. now right.
Qed.

Lemma country_query_missing_year_witness :
  let r := readDataFile new_Report gapFile in
  let candidates := filter (matching "X") (indicators r) in
  winner r "X" 1980 1990
  = match find (qualifiedb 1980 1990) candidates with
    | Some w => Some w
    | None => hd_error candidates
    end.
Proof.
  intros r candidates.
  apply (country_query_missing_year r "X" 1980 1990 1985).
  - lia.
  - intros i Hi. vm_compute in Hi.
    destruct Hi as [<-|[<-|[<-|[]]]]; reflexivity.
Defined.

(** X12.  When [endYear] is below [startYear] the two loops do not run,
    all sums are 0 and every candidate wins its tie: the query returns
    the country of the last matching indicator. *)
Theorem country_query_empty_range
        (r : Report) (indicatorName : string) (startYear endYear : Z)
        (earlier : list Indicator) (lst : Indicator) :
  endYear < startYear ->
  filter (matching indicatorName) (indicators r) = (earlier ++ [lst])%list ->
  countryOfHighestAverageBewteenYears r indicatorName startYear endYear
  = Ok (country lst).
Proof.
  intros H Hf. unfold countryOfHighestAverageBewteenYears, winner.
  rewrite Hf, fold_higher_empty_range by assumption. reflexivity.
Qed.

Lemma country_query_empty_range_witness :
  countryOfHighestAverageBewteenYears allGapsReport "X" 1990 1980 = Ok "Chad".
Proof.
  apply (country_query_empty_range allGapsReport "X" 1990 1980
           [ {| country := "Benin"; countryCode := "BEN"; name := "X"; code := "x";
                values := [(KInt 1980, "7"); (KInt 1981, "")] |} ]
           {| country := "Chad"; countryCode := "TCD"; name := "X"; code := "x";
              values := [(KInt 1980, ""); (KInt 1981, "9")] |}).
  - lia.
  - reflexivity.
Defined.

(* ================================================================== *)
(** * The year query: the accumulation year by year *)
(* ================================================================== *)

Lemma fold_later_In (averagies : JsObject.t Average) (l : list PropertyKey) :
  forall x, In (fold_left (later averagies) l x) (x :: l).
Proof.
  induction l as [|c l IH]; intro x; cbn [fold_left]; [now left|].
  destruct (IH (later averagies x c)) as [E|Hin]; [|right; now right].
  rewrite <- E. unfold later.
  destruct (fge _ _); [right; now left | now left].
Qed.

(** Without [NaN] the final reduction ends on the last of the keys of
    maximal average. *)
Lemma fold_later_last_max (averagies : JsObject.t Average) (l : list PropertyKey) :
  forall x,
    (forall k, In k (x :: l) -> avgOf averagies k <> NaN) ->
    let y := fold_left (later averagies) l x in
    exists before after,
      x :: l = (before ++ y :: after)%list
      /\ (forall k, In k before ->
                    fge (avgOf averagies y) (avgOf averagies k) = true)
      /\ (forall k, In k after ->
                    fge (avgOf averagies k) (avgOf averagies y) = false).
Proof.
  induction l as [|c l IH]; intros x Hnan; cbn [fold_left].
  - exists [], []. repeat split; intros k [].
  - assert (Hx : avgOf averagies x <> NaN) by (apply Hnan; now left).
    assert (Hc : avgOf averagies c <> NaN) by (apply Hnan; right; now left).
    assert (Hstep : later averagies x c
                    = if fge (avgOf averagies c) (avgOf averagies x)
                      then c else x) by reflexivity.
    rewrite Hstep. clear Hstep.
    destruct (fge (avgOf averagies c) (avgOf averagies x)) eqn:E.
    + destruct (IH c) as (before & after & Hsplit & Hb & Ha).
      { intros k Hk. apply Hnan. now right. }
      cbv zeta in *.
      set (y := fold_left (later averagies) l c) in *.
      exists (x :: before), after. split; [now rewrite Hsplit | split].
      * intros k [<-|Hk]; [|now apply Hb].
        destruct before as [|b before].
        -- injection Hsplit as Hy _. now rewrite <- Hy.
        -- injection Hsplit as <- _.
           apply (fge_trans _ (avgOf averagies c)); [|assumption].
           apply Hb. now left.
      * exact Ha.
    + destruct (IH x) as (before & after & Hsplit & Hb & Ha).
      { intros k [<-|Hk]; apply Hnan; [now left | right; now right]. }
      cbv zeta in *.
      set (y := fold_left (later averagies) l x) in *.
      destruct before as [|b before].
      * injection Hsplit as Hy Hl.
        exists [], (c :: after). split; [|split].
        -- cbn [app]. now rewrite <- Hy, <- Hl.
        -- intros k [].
        -- intros k [<-|Hk]; [now rewrite <- Hy | now apply Ha].
      * injection Hsplit as <- Hl.
        exists (x :: c :: before), after. split; [|split].
        -- cbn [app]. now rewrite Hl.
        -- intros k [<-|[<-|Hk]].
           ++ apply Hb. now left.
           ++ apply (fge_trans _ (avgOf averagies x)).
              ** apply Hb. now left.
              ** now apply fge_total.
           ++ apply Hb. now right.
        -- exact Ha.
Qed.

(* ================================================================== *)
(** * The year query: further properties *)
(* ================================================================== *)

(** X13.  When a matching indicator has an entry for some year, the
    year query returns a year, and the year returned is a key of the
    values of some matching indicator. *)
Theorem year_query_returns_a_year
        (r : Report) (indicatorName : string) (i : Indicator) (k : PropertyKey) :
  In i (indicators r) ->
  name i = indicatorName ->
  In k (keys (values i)) ->
  exists y j,
    yearOfHighestAmongAllCountries r indicatorName = Ok y
    /\ In j (indicators r) /\ name j = indicatorName
    /\ In y (keys (values j)).
Proof.
  intros Hi Hn Hk.
  assert (Hin : In k (keys (averagiesOf r indicatorName)))
    by (apply In_keys_averagiesOf; now exists i).
  unfold yearOfHighestAmongAllCountries.
  destruct (keys (averagiesOf r indicatorName)) as [|x l] eqn:E;
    [destruct Hin|].
  cbn [reduce1].
  pose proof (fold_later_In (averagiesOf r indicatorName) l x) as Hy.
  rewrite <- E in Hy. apply In_keys_averagiesOf in Hy.
  destruct Hy as (j & Hj & Hjn & Hjk). eauto 7.
Qed.

Lemma year_query_returns_a_year_witness :
  exists y j,
    yearOfHighestAmongAllCountries tieReport "X" = Ok y
    /\ In j (indicators tieReport) /\ name j = "X"
    /\ In y (keys (values j)).
Proof.
  apply (year_query_returns_a_year tieReport "X" tieFirst (KInt 1980)).
  - left. reflexivity.
  - reflexivity.
  - left. reflexivity.
Defined.

(** X14.  When no matching indicator has an entry for any year, in
    particular when no indicator matches, the year query throws the
    type error of a reduction of an empty array. *)
Theorem year_query_without_years (r : Report) (indicatorName : string) :
  (forall i, In i (indicators r) -> name i = indicatorName -> values i = []) ->
  yearOfHighestAmongAllCountries r indicatorName
  = Throw TypeError_ReduceOfEmptyArray.
Proof.
  intro H. unfold yearOfHighestAmongAllCountries.
  destruct (keys (averagiesOf r indicatorName)) as [|x l] eqn:E; [reflexivity|].
  assert (Hin : In x (keys (averagiesOf r indicatorName)))
    by (rewrite E; now left).
  apply In_keys_averagiesOf in Hin. destruct Hin as (i & Hi & Hn & Hk).
  rewrite (H i Hi Hn) in Hk. destruct Hk.
Qed.

Lemma year_query_without_years_witness :
  yearOfHighestAmongAllCountries (readDataFile new_Report noYearsFile) "X"
  = Throw TypeError_ReduceOfEmptyArray.
Proof.
  apply (year_query_without_years (readDataFile new_Report noYearsFile) "X").
  intros i Hi _. vm_compute in Hi. destruct Hi as [<-|[]]. reflexivity.
Defined.

(** X15.  When no stored average is [NaN], the year returned is the last
    one, in the enumeration order of [averagies], among the years of
    maximal average: every year before it has an average it is [>=] to,
    and no year after it has an average [>=] its own. *)
Theorem year_query_last_maximal (r : Report) (indicatorName : string)
        (y : PropertyKey) :
  let averagies := averagiesOf r indicatorName in
  (forall k, In k (keys averagies) -> avgOf averagies k <> NaN) ->
  yearOfHighestAmongAllCountries r indicatorName = Ok y ->
  exists before after,
    keys averagies = (before ++ y :: after)%list
    /\ (forall k, In k before ->
                  fge (avgOf averagies y) (avgOf averagies k) = true)
    /\ (forall k, In k after ->
                  fge (avgOf averagies k) (avgOf averagies y) = false).
Proof.
  intros averagies Hnan. unfold yearOfHighestAmongAllCountries.
  fold averagies. destruct (keys averagies) as [|x l] eqn:E; [discriminate|].
  cbn [reduce1]. intros [= <-].
  exact (fold_later_last_max averagies l x Hnan).
Qed.

Lemma year_query_last_maximal_witness :
  let averagies := averagiesOf tieReport "X" in
  exists before after,
    keys averagies = (before ++ KInt 1980 :: after)%list
    /\ (forall k, In k before ->
                  fge (avgOf averagies (KInt 1980)) (avgOf averagies k) = true)
    /\ (forall k, In k after ->
                  fge (avgOf averagies k) (avgOf averagies (KInt 1980)) = false).
Proof.
  apply (year_query_last_maximal tieReport "X" (KInt 1980)).
  - intros k Hk. vm_compute in Hk.
    destruct Hk as [<-|[<-|[]]]; vm_compute; discriminate.
  - vm_compute. reflexivity.
Defined.

(** X16.  When the keys of every matching indicator are pairwise
    distinct, the entry of a year in [averagies] holds as total the sum,
    taken from the left starting at 0, of the parsed non-empty cells of
    that year in the matching indicators in report order, and as count
    0 incremented once per such cell. *)
Theorem year_entry_of_cells (r : Report) (indicatorName : string)
        (k : PropertyKey) :
  let candidates := filter (matching indicatorName) (indicators r) in
  (forall i, In i candidates -> NoDup (keys (values i))) ->
  In k (keys (averagiesOf r indicatorName)) ->
  exists a,
    getProp k (averagiesOf r indicatorName) = Some a
    /\ total a = sumCells (cellsOf k candidates)
    /\ count a = countCells (cellsOf k candidates).
Proof.
  intros candidates Hnd Hk.
  apply getProp_In in Hk. destruct Hk as [a Ha].
  pose proof (getProp_fold_accumulate k candidates [] Hnd) as H.
  unfold averagiesOf in Ha. fold candidates in Ha. rewrite Ha in H.
  cbn [getProp total count] in H. exists a.
  unfold averagiesOf. fold candidates. split; [exact Ha | exact H].
Qed.

Lemma year_entry_of_cells_witness :
  let r := readDataFile new_Report gapFile in
  let candidates := filter (matching "X") (indicators r) in
  exists a,
    getProp (KInt 1981) (averagiesOf r "X") = Some a
    /\ total a = sumCells (cellsOf (KInt 1981) candidates)
    /\ count a = countCells (cellsOf (KInt 1981) candidates).
Proof.
  intros r candidates.
  apply (year_entry_of_cells r "X" (KInt 1981)).
  - intros i Hi. vm_compute in Hi.
    destruct Hi as [<-|[<-|[<-|[]]]]; cbn [values keys map fst];
      (constructor; [intros [H|[]]; discriminate H
                    | constructor; [intros [] | constructor]]).
  - vm_compute. right. left. reflexivity.
Defined.

(* ================================================================== *)
(** * Sorting: facts *)
(* ================================================================== *)

Section SortFacts.
Context {A : Type}.
Variable cmp : A -> A -> Z.

Lemma insertSorted_perm (x : A) (l : list A) :
  Permutation (x :: l) (insertSorted cmp x l).
Proof.
  induction l as [|y l IH]; cbn [insertSorted]; [reflexivity|].
  destruct (cmp x y <? 0); [reflexivity|].
  rewrite perm_swap. now constructor.
Qed.

Lemma fold_insertSorted_perm (l : list A) :
  forall acc,
    Permutation (acc ++ l)
                (fold_left (fun acc x => insertSorted cmp x acc) l acc).
Proof.
  induction l as [|x l IH]; intro acc; cbn [fold_left].
  - now rewrite app_nil_r.
  - rewrite <- IH. rewrite <- insertSorted_perm.
    symmetry. apply Permutation_middle.
Qed.

Lemma sort_perm (l : list A) : Permutation l (sort cmp l).
Proof. exact (fold_insertSorted_perm l []). Qed.

Hypothesis Hcmp : consistent cmp.

Lemma cmp_lt_flip (a b : A) : cmp a b < 0 -> cmp b a > 0.
Proof.
  destruct Hcmp as (Hrefl & Hsym & _ & Hlt & _). intro H.
  destruct (Z.compare_spec (cmp b a) 0) as [E|E|E]; [| |lia].
  - apply Hsym in E. lia.
  - pose proof (Hlt a b a H E) as H1. rewrite Hrefl in H1. lia.
Qed.

Lemma cmp_gt_flip (a b : A) : cmp a b > 0 -> cmp b a < 0.
Proof.
  destruct Hcmp as (Hrefl & Hsym & _ & _ & Hgt). intro H.
  destruct (Z.compare_spec (cmp b a) 0) as [E|E|E]; [|lia|].
  - apply Hsym in E. lia.
  - assert (E' : cmp b a > 0) by lia.
    pose proof (Hgt a b a H E') as H1. rewrite Hrefl in H1. lia.
Qed.

Lemma cmp_not_lt_flip (a b : A) : 0 <= cmp a b -> cmp b a <= 0.
Proof.
  intro H. destruct (Z.compare_spec (cmp b a) 0) as [E|E|E]; [lia|lia|].
  assert (E' : cmp b a > 0) by lia. apply cmp_gt_flip in E'. lia.
Qed.

Lemma cmp_le_trans (a b c : A) : cmp a b <= 0 -> cmp b c <= 0 -> cmp a c <= 0.
Proof.
  destruct Hcmp as (Hrefl & Hsym & Heq & Hlt & Hgt). intros H1 H2.
  destruct (Z.compare_spec (cmp a c) 0) as [E|E|E]; [lia|lia|].
  exfalso. assert (Hca : cmp c a < 0) by (apply cmp_gt_flip; lia).
  destruct (Z.eq_dec (cmp a b) 0) as [Eab|Nab];
    destruct (Z.eq_dec (cmp b c) 0) as [Ebc|Nbc].
  - pose proof (Heq a b c Eab Ebc). lia.
  - assert (Hbc : cmp b c < 0) by lia.
    pose proof (Hlt b c a Hbc Hca) as H. apply Hsym in Eab. lia.
  - assert (Hab : cmp a b < 0) by lia.
    pose proof (Hlt c a b Hca Hab) as H. apply Hsym in Ebc. lia.
  - assert (Hab : cmp a b < 0) by lia. assert (Hbc : cmp b c < 0) by lia.
    pose proof (Hlt a b c Hab Hbc). lia.
Qed.

Lemma insertSorted_sorted (x : A) (l : list A) :
  StronglySorted (fun a b => cmp a b <= 0) l ->
  StronglySorted (fun a b => cmp a b <= 0) (insertSorted cmp x l).
Proof.
  induction 1 as [|y l Hs IH Hy]; cbn [insertSorted].
  - repeat constructor.
  - destruct (cmp x y <? 0) eqn:E.
    + apply Z.ltb_lt in E. constructor; [now constructor|].
      constructor; [lia|].
      apply Forall_forall. intros z Hz.
      apply (cmp_le_trans x y z); [lia|].
      rewrite Forall_forall in Hy. now apply Hy.
    + apply Z.ltb_ge in E. constructor; [exact IH|].
      apply Forall_forall. intros z Hz.
      apply (Permutation_in _ (Permutation_sym (insertSorted_perm x l))) in Hz.
      destruct Hz as [<-|Hz].
      * now apply cmp_not_lt_flip.
      * rewrite Forall_forall in Hy. now apply Hy.
Qed.

Lemma fold_insertSorted_sorted (l : list A) :
  forall acc,
    StronglySorted (fun a b => cmp a b <= 0) acc ->
    StronglySorted (fun a b => cmp a b <= 0)
                   (fold_left (fun acc x => insertSorted cmp x acc) l acc).
Proof.
  induction l as [|x l IH]; intros acc H; cbn [fold_left]; [exact H|].
  apply IH. now apply insertSorted_sorted.
Qed.

Lemma sort_sorted (l : list A) :
  StronglySorted (fun a b => cmp a b <= 0) (sort cmp l).
Proof. apply fold_insertSorted_sorted. constructor. Qed.

(** Insertion puts the new element after the elements equal to it. *)
Lemma insertSorted_class (z x : A) (l : list A) :
  StronglySorted (fun a b => cmp a b <= 0) l ->
  filter (fun y => cmp z y =? 0) (insertSorted cmp x l)
  = (filter (fun y => cmp z y =? 0) l ++ (if cmp z x =? 0 then [x] else []))%list.
Proof.
  destruct Hcmp as (Hrefl & Hsym & Heq & Hlt & Hgt).
  induction 1 as [|y l Hs IH Hy]; cbn [insertSorted].
  - cbn [filter app]. reflexivity.
  - destruct (cmp x y <? 0) eqn:E.
    + apply Z.ltb_lt in E. cbn [filter].
      destruct (cmp z x =? 0) eqn:Ezx; [|now rewrite app_nil_r].
      apply Z.eqb_eq in Ezx.
      assert (Hnone : forall w, In w (y :: l) -> (cmp z w =? 0) = false).
      { intros w Hw. apply Z.eqb_neq. intro Ezw.
        assert (Hyw : cmp y w <= 0).
        { destruct Hw as [<-|Hw]; [rewrite Hrefl; lia|].
          rewrite Forall_forall in Hy. now apply Hy. }
        assert (Hxw : cmp x w <= 0) by (apply (cmp_le_trans x y w); lia).
        assert (Hwx : cmp w x = 0).
        { apply (Heq w z x); [now apply Hsym | assumption]. }
        assert (Hwy : cmp w y <= 0).
        { apply (cmp_le_trans w x y); lia. }
        assert (Hyx : cmp y x <= 0).
        { apply (cmp_le_trans y w x); lia. }
        apply cmp_lt_flip in E. lia. }
      assert (Hf : filter (fun y0 => cmp z y0 =? 0) (y :: l) = []).
      { clear -Hnone. induction (y :: l) as [|w l' IHl]; [reflexivity|].
        cbn [filter]. rewrite (Hnone w) by now left.
        apply IHl. intros w' Hw'. apply Hnone. now right. }
      cbn [filter] in Hf. rewrite Hf. reflexivity.
    + cbn [filter]. rewrite IH.
      destruct (cmp z y =? 0); reflexivity.
Qed.

Lemma fold_insertSorted_class (z : A) (l : list A) :
  forall acc,
    StronglySorted (fun a b => cmp a b <= 0) acc ->
    filter (fun y => cmp z y =? 0)
           (fold_left (fun acc x => insertSorted cmp x acc) l acc)
    = (filter (fun y => cmp z y =? 0) acc
       ++ filter (fun y => cmp z y =? 0) l)%list.
Proof.
  induction l as [|x l IH]; intros acc H; cbn [fold_left filter].
  - now rewrite app_nil_r.
  - rewrite IH by now apply insertSorted_sorted.
    rewrite insertSorted_class by assumption.
    rewrite <- app_assoc. destruct (cmp z x =? 0); reflexivity.
Qed.

Lemma sort_stable (z : A) (l : list A) :
  filter (fun y => cmp z y =? 0) (sort cmp l)
  = filter (fun y => cmp z y =? 0) l.
Proof.
  unfold sort. rewrite fold_insertSorted_class by constructor. reflexivity.
Qed.

End SortFacts.

Lemma consistent_on_field {A : Type} (cmp : string -> string -> Z)
      (field : A -> string) :
  consistent cmp -> consistent (fun a b => cmp (field a) (field b)).
Proof.
  intros (Hrefl & Hsym & Heq & Hlt & Hgt).
  repeat split; intros; eauto.
Qed.

Lemma byLength_consistent : consistent byLength.
Proof. unfold consistent, byLength. repeat split; intros; lia. Qed.

(* ================================================================== *)
(** * Sorting: properties *)
(* ================================================================== *)

(** X17.  Whatever the sort field and the comparison of the host,
    [sortBy] keeps the same indicators, each as many times as before,
    and leaves [years] as it is. *)
Theorem sortBy_permutes
        (localeCompare : string -> string -> Z) (sortField : string) (r : Report) :
  Permutation (indicators r) (indicators (sortBy localeCompare sortField r))
  /\ List.length (indicators (sortBy localeCompare sortField r))
     = List.length (indicators r)
  /\ years (sortBy localeCompare sortField r) = years r.
Proof.
  assert (H : Permutation (indicators r)
                          (indicators (sortBy localeCompare sortField r))
              /\ years (sortBy localeCompare sortField r) = years r).
  { unfold sortBy.
    destruct (String.eqb sortField "name");
      [|destruct (String.eqb sortField "code")];
      cbn [indicators years]; split; try reflexivity; apply sort_perm. }
  destruct H as [Hp Hy]. split; [exact Hp | split; [|exact Hy]].
  symmetry. now apply Permutation_length.
Qed.

(** X18.  With a consistent comparison, after [sortBy("code")] the
    codes of the indicators are in order: no indicator is followed,
    however far, by one whose code compares below its own; likewise
    for [sortBy("name")] and the names. *)
Theorem sortBy_sorts
        (localeCompare : string -> string -> Z) (r : Report) :
  consistent localeCompare ->
  StronglySorted (fun a b => localeCompare (code a) (code b) <= 0)
                 (indicators (sortBy localeCompare "code" r))
  /\ StronglySorted (fun a b => localeCompare (name a) (name b) <= 0)
                    (indicators (sortBy localeCompare "name" r)).
Proof.
  intro H. split.
  - apply (sort_sorted (fun a b => localeCompare (code a) (code b))).
    now apply consistent_on_field.
  - apply (sort_sorted (fun a b => localeCompare (name a) (name b))).
    now apply consistent_on_field.
Qed.

Lemma sortBy_sorts_witness :
  StronglySorted (fun a b => byLength (code a) (code b) <= 0)
                 (indicators (sortBy byLength "code" sumsReport))
  /\ StronglySorted (fun a b => byLength (name a) (name b) <= 0)
                    (indicators (sortBy byLength "name" sumsReport)).
Proof.
  apply (sortBy_sorts byLength sumsReport). exact byLength_consistent.
Defined.

(** On the sample report, whose codes have the lengths 3, 1, 2, 4 and 5,
    sorting by code moves the second and third indicators to the front,
    and sorting by name moves the one indicator with a longer name to
    the end. *)
Lemma sortBy_sorts_sample :
  map country (indicators sumsReport)
  = ["Aruba"; "Benin"; "Chad"; "Denmark"; "Egypt"]
  /\ map country (indicators (sortBy byLength "code" sumsReport))
     = ["Benin"; "Chad"; "Aruba"; "Denmark"; "Egypt"]
  /\ map country (indicators (sortBy byLength "name" sumsReport))
     = ["Aruba"; "Benin"; "Chad"; "Egypt"; "Denmark"].
Proof. repeat split; vm_compute; reflexivity. Qed.

(** X19.  With a consistent comparison the sort is stable: after
    [sortBy("code")] the indicators whose codes compare equal to a
    given string are the same, in the same order, as before; likewise
    for [sortBy("name")] and the names. *)
Theorem sortBy_stable
        (localeCompare : string -> string -> Z) (r : Report) (z : string) :
  consistent localeCompare ->
  filter (fun i => localeCompare z (code i) =? 0)
         (indicators (sortBy localeCompare "code" r))
  = filter (fun i => localeCompare z (code i) =? 0) (indicators r)
  /\ filter (fun i => localeCompare z (name i) =? 0)
            (indicators (sortBy localeCompare "name" r))
     = filter (fun i => localeCompare z (name i) =? 0) (indicators r).
Proof.
  intro H.
  set (probe := {| country := ""; countryCode := ""; name := z; code := z;
                   values := [] |}).
  split.
  - exact (sort_stable (fun a b => localeCompare (code a) (code b))
                       (consistent_on_field localeCompare code H)
                       probe (indicators r)).
  - exact (sort_stable (fun a b => localeCompare (name a) (name b))
                       (consistent_on_field localeCompare name H)
                       probe (indicators r)).
Qed.

Lemma sortBy_stable_witness :
  filter (fun i => byLength "y" (code i) =? 0)
         (indicators (sortBy byLength "code" allGapsReport))
  = filter (fun i => byLength "y" (code i) =? 0) (indicators allGapsReport)
  /\ filter (fun i => byLength "y" (name i) =? 0)
            (indicators (sortBy byLength "name" allGapsReport))
     = filter (fun i => byLength "y" (name i) =? 0) (indicators allGapsReport).
Proof.
  apply (sortBy_stable byLength allGapsReport "y"). exact byLength_consistent.
Defined.

(* ================================================================== *)
(** * The main program: facts *)
(* ================================================================== *)

(** All the reader prints are diagnostics of dropped lines. *)
Lemma console_is_diagnostics (r : Report) (lines : list string) (e : event) :
  In e (console (readLines r lines)) -> exists input, e = diagnostic input.
Proof.
  destruct (headerOf lines) as [header|] eqn:Hh.
  - rewrite (readLines_with_header r lines header Hh). cbn [console].
    intro H. apply in_map_iff in H. destruct H as (input & <- & _). eauto.
  - unfold readLines.
    pose proof (fold_onLine_to_header lines
                  {| gotHeader := false; this := r; console := [] |} eq_refl) as H.
    rewrite Hh in H. rewrite H. intros [].
Qed.

(** What the [then] callback prints or rejects with. *)
Lemma answers_events (localeCompare : string -> string -> Z) (r : Report)
      (e : event) :
  In e (answers localeCompare r) ->
  (exists s, e = ConsoleLog [String "T"%char s]) \/ (exists x, e = Rejected x).
Proof.
  unfold answers.
  destruct (countryOfHighestAverageBewteenYears _ _ _ _) as [c|x].
  - intros [<-|H].
    + left. cbn [append]. eauto.
    + destruct (yearOfHighestAmongAllCountries _ _) as [y|x];
        destruct H as [<-|[]]; [left; cbn [append]; eauto | right; eauto].
  - intros [<-|[]]. right. eauto.
Qed.

Lemma filter_matching_none (indicatorName : string) (l : list Indicator) :
  (forall i, In i l -> name i <> indicatorName) ->
  filter (matching indicatorName) l = [].
Proof.
  intro H. induction l as [|i l IH]; [reflexivity|].
  cbn [filter]. destruct (matching indicatorName i) eqn:E.
  - apply matching_name in E. exfalso. apply (H i); [now left | assumption].
  - apply IH. intros j Hj. apply H. now right.
Qed.

(* ================================================================== *)
(** * The main program: further properties *)
(* ================================================================== *)

(** X20.  With at least three entries in [process.argv] the program
    opens the file named by the third entry and no other file, never
    exits through [process.exit], and prints neither line of the usage
    message, whatever the file holds. *)
Theorem main_reads_first_argument
        (localeCompare : string -> string -> Z) (argv : list string)
        (fileLines : string -> option (list string)) :
  (3 <= List.length argv)%nat ->
  exists rest,
    main localeCompare argv fileLines = OpenFile (nth 2 argv "") :: rest
    /\ (forall path, ~ In (OpenFile path) rest)
    /\ (forall status, ~ In (ProcessExit status) rest)
    /\ ~ In (ConsoleLog ["Usage : ts-node index.ts <data file path>"]) rest
    /\ ~ In (ConsoleLog ["Example : ts-node src/index.ts data.csv"]) rest.
Proof.
  intro H. unfold main. apply Nat.ltb_ge in H. rewrite H.
  eexists. split; [reflexivity|].
  destruct (fileLines (nth 2 argv "")) as [lines|].
  - assert (Hev : forall e,
               In e (console (readLines new_Report lines)
                     ++ answers localeCompare (this (readLines new_Report lines)))
               -> (exists input, e = diagnostic input)
                  \/ (exists s, e = ConsoleLog [String "T"%char s])
                  \/ (exists x, e = Rejected x)).
    { intros e He. apply in_app_or in He. destruct He as [He|He].
      - left. exact (console_is_diagnostics new_Report lines e He).
      - right. exact (answers_events localeCompare _ e He). }
    repeat split; intros; intro Hin; apply Hev in Hin;
      destruct Hin as [[input E]|[[s E]|[x E]]]; discriminate E.
  - repeat split; intros; intros [E|[]]; discriminate E.
Qed.

Lemma main_reads_first_argument_witness :
  exists rest,
    main byteOrder ["node"; "index.ts"; "data.csv"; "extra.csv"] oneFile
    = OpenFile (nth 2 ["node"; "index.ts"; "data.csv"; "extra.csv"] "") :: rest
    /\ (forall path, ~ In (OpenFile path) rest)
    /\ (forall status, ~ In (ProcessExit status) rest)
    /\ ~ In (ConsoleLog ["Usage : ts-node index.ts <data file path>"]) rest
    /\ ~ In (ConsoleLog ["Example : ts-node src/index.ts data.csv"]) rest.
Proof.
  apply (main_reads_first_argument byteOrder
           ["node"; "index.ts"; "data.csv"; "extra.csv"] oneFile).
  simpl. lia.
Defined.

(** X21.  When the file read has no indicator named
    [Urban population growth (annual %)], a file without a header line
    for one, the program prints the diagnostics of the dropped lines
    and then fails in the first query: the promise is rejected with the
    type error of reading [country] from [null], and neither answer is
    printed. *)
Theorem main_without_first_indicator
        (localeCompare : string -> string -> Z) (argv lines : list string)
        (fileLines : string -> option (list string)) :
  (3 <= List.length argv)%nat ->
  fileLines (nth 2 argv "") = Some lines ->
  (forall i, In i (indicators (readDataFile new_Report lines)) ->
             name i <> "Urban population growth (annual %)") ->
  main localeCompare argv fileLines
  = (OpenFile (nth 2 argv "")
     :: console (readLines new_Report lines)
     ++ [Rejected (TypeError_PropertyOfNull "country")])%list.
Proof.
  intros H Hf Hn. unfold main. apply Nat.ltb_ge in H. rewrite H, Hf.
  f_equal. f_equal. unfold answers, countryOfHighestAverageBewteenYears, winner.
  rewrite filter_matching_none; [reflexivity|].
  intros i Hi. apply Hn. unfold readDataFile.
  assert (Hp : Permutation
                 (indicators (this (readLines new_Report lines)))
                 (indicators (sortBy localeCompare "code"
                                     (this (readLines new_Report lines))))).
  { unfold sortBy. cbn [String.eqb Ascii.eqb Bool.eqb indicators].
    apply sort_perm. }
  apply (Permutation_in _ (Permutation_sym Hp)). exact Hi.
Qed.

Lemma main_without_first_indicator_witness :
  main byteOrder ["node"; "index.ts"; "notes.txt"]
       (fun _ => Some ["Data Source"; ""; "Last Updated"])
  = (OpenFile (nth 2 ["node"; "index.ts"; "notes.txt"] "")
     :: console (readLines new_Report ["Data Source"; ""; "Last Updated"])
     ++ [Rejected (TypeError_PropertyOfNull "country")])%list.
Proof.
  apply (main_without_first_indicator byteOrder
           ["node"; "index.ts"; "notes.txt"]
           ["Data Source"; ""; "Last Updated"]).
  - simpl. lia.
  - reflexivity.
  - intros i Hi. vm_compute in Hi. destruct Hi.
Defined.
